(** * DView: motion detection, recording control and event log

    A shallow embedding of the capture-and-motion pipeline of the DView
    security camera application:

    - [backend/camera.py]: class [SecurityCamera] (module [Camera]);
    - [backend/gui_with_preview.py]: [SecurityCameraGUI.detect_motion]
      (module [Gui]);
    - [backend/app.py]: the capture loop [detect_motion_and_record] and the
      [/record] handler [manual_record] (module [App]).

    The OpenCV calls are kept abstract behind the class [Cv]; wall-clock
    readings, time stamps and the frames a device delivers are inputs of
    the steps that consume them. *)

From Stdlib Require Import ZArith QArith.
From stdpp Require Import base option list gmap strings sorting.

Local Open Scope string_scope.
Local Open Scope list_scope.
Set Warnings "-register-all".

(** ** The OpenCV operations used by the sources *)

(** [cv2.dilate] is called with an explicit 5x5 kernel of ones in
  [camera.py] and [gui_with_preview.py], and with [None] (the default
  3x3 kernel) in [app.py]. *)
Inductive kernel := Ones (rows cols : Z) | DefaultKernel.

Class Cv := {
  Frame : Type;                 (* a BGR image, as read from a capture *)
  Gray : Type;                  (* a single-channel image *)
  Contour : Type;
  Jpeg : Type;
  cvtColor : Frame -> Gray;                        (* COLOR_BGR2GRAY *)
  GaussianBlur : Gray -> Z * Z -> Z -> Gray;       (* src, ksize, sigmaX *)
  absdiff : Gray -> Gray -> Gray;
  threshold : Gray -> Z -> Z -> Gray;              (* THRESH_BINARY *)
  dilate : Gray -> kernel -> nat -> Gray;          (* src, kernel, iterations *)
  findContours : Gray -> list Contour;             (* RETR_EXTERNAL *)
  contourArea : Contour -> Q;
  imencode : Frame -> option Jpeg;                 (* None: ret is False *)
  tobytes : Jpeg -> string;
  (* drawing primitives of _create_dummy_frame *)
  zeros : Z -> Z -> Frame;
  getTextSize : string -> Z * Z;
  putText : Frame -> string -> Z * Z -> Frame;
  rectangle : Frame -> Z * Z -> Z * Z -> Frame;
  circle : Frame -> Z * Z -> Z -> Frame
}.

(** ** The event log: a JSON file rewritten on every append *)

Module EventLog.

Inductive json :=
| JNull
| JStr (s : string)
| JNum (n : Z)
| JArr (items : list json)
| JObj (fields : list (string * json)).

(** What the calls of [_log_event] find at [events_file].  The first
    three are paths that [open(.., 'w')] accepts. *)
Inductive store :=
| Missing                  (* os.path.exists is False, and the file can be
                              created *)
| Unreadable               (* a file that json.load cannot parse: empty,
                              half-written or otherwise malformed *)
| Loaded (j : json)        (* a file holding the JSON value j *)
| Unwritable.              (* open(.., 'w') raises OSError: the path is a
                              directory, its directory is gone, or the file
                              may not be written; whatever json.load returned *)

(** The dictionary built at the top of [_log_event]. *)
Definition event (timestamp event_type : string) : json :=
  JObj [("timestamp", JStr timestamp); ("type", JStr event_type)].

(** Lines 188-194.  [events = []], replaced by the loaded value when the
    file exists and loads; the bare [except] resets it to [[]]. *)
Definition load_events (s : store) : json :=
  match s with
  | Loaded j => j
  | Missing | Unreadable | Unwritable => JArr []
  end.

(** Line 198, [open(self.events_file, 'w')]: outside any [try], so its
    [OSError] leaves the call ([None]); when it succeeds the file exists
    and is empty, which a [json.load] in another thread cannot parse. *)
Definition open_w (s : store) : option store :=
  match s with
  | Unwritable => None
  | Missing | Unreadable | Loaded _ => Some Unreadable
  end.

(** Line 199, [json.dump(events, f, indent=2)] and the end of the [with]
    block: the file holds the list. *)
Definition dump (events : list json) : store := Loaded (JArr events).

(** [_log_event], run from its first to its last statement with no other
    call of it in between.  [None] stands for the exception that leaves the
    call: the [AttributeError] of [events.append] when the loaded JSON value
    is not a list, or the [OSError] of [open(.., 'w')]; the file is as it
    was in both cases.  Calls that overlap are [run_calls] below. *)
Definition _log_event (timestamp event_type : string) (s : store)
  : option store :=
  match load_events s with
  | JArr events =>
      match open_w s with
      | Some _ => Some (dump (events ++ [event timestamp event_type]))
      | None => None
      end
  | _ => None
  end.

(** The events a reader gets back from the log: none before the file
    exists, the list in the file afterwards. *)
Definition persisted (s : store) : option (list json) :=
  match s with
  | Missing => Some []
  | Loaded (JArr events) => Some events
  | _ => None
  end.

(** Appending a batch of (timestamp, type) pairs one call after the
    other. *)
Fixpoint log_all (batch : list (string * string)) (s : store) : option store :=
  match batch with
  | [] => Some s
  | (ts, ty) :: rest =>
      match _log_event ts ty s with
      | Some s' => log_all rest s'
      | None => None
      end
  end.

(** A store that [_log_event] can extend: a file that can be written and
    is absent, does not load, or holds a JSON list. *)
Definition appendable (s : store) : bool :=
  match s with
  | Missing | Unreadable | Loaded (JArr _) => true
  | Loaded _ | Unwritable => false
  end.

(** *** Calls of [_log_event] that overlap

    [_log_event] takes no lock and is called from the request thread
    ([manual_record]), from the stream generator and from every
    [_record_clip] thread.  A call in progress is at one of the three
    accesses it makes to the file, holding its local [events]. *)
Inductive position :=
| ToLoad                           (* before lines 188-194 *)
| ToOpen (events : json)           (* before lines 196-198 *)
| ToDump (events : list json)      (* inside the with block, line 199 *)
| Returned
| Raised.

Record call := {
  timestamp : string;              (* datetime.now().isoformat(), line 184 *)
  event_type : string;
  next : position
}.

Definition begin (timestamp event_type : string) : call :=
  {| timestamp := timestamp; event_type := event_type; next := ToLoad |}.

Definition move (c : call) (p : position) : call :=
  {| timestamp := timestamp c; event_type := event_type c; next := p |}.

(** The next file access of one call. *)
Definition call_step (c : call) (s : store) : call * store :=
  match next c with
  | ToLoad => (move c (ToOpen (load_events s)), s)
  | ToOpen (JArr events) =>
      match open_w s with
      | Some s' =>
          (move c (ToDump (events ++ [event (timestamp c) (event_type c)])), s')
      | None => (move c Raised, s)
      end
  | ToOpen _ => (move c Raised, s)
  | ToDump events => (move c Returned, dump events)
  | Returned | Raised => (c, s)
  end.

(** The calls in progress and the file; [schedule] names, access by
    access, the call that runs next. *)
Definition run_calls (schedule : list nat) (calls : list call) (s : store)
  : list call * store :=
  foldl (fun st i =>
           match st.1 !! i with
           | Some c =>
               let r := call_step c st.2 in (<[i := r.1]> st.1, r.2)
           | None => st
           end)
        (calls, s) schedule.

(** Two calls, 0 and 1, in progress at once.  In [both_load_first] call 1
    loads before call 0 opens the file for writing; in [load_during_write]
    call 1 loads after call 0 has opened the file and before call 0 has
    dumped its list.  Each call makes its three accesses in order. *)
Definition both_load_first : list nat := [0; 1; 0; 0; 1; 1]%nat.
Definition load_during_write : list nat := [0; 0; 1; 0; 1; 1]%nat.

(** One call running alone. *)
Definition alone (timestamp event_type : string) (s : store) : option store :=
  match run_calls [0; 0; 0]%nat [begin timestamp event_type] s with
  | ([c], s') => match next c with Returned => Some s' | _ => None end
  | _ => None
  end.

End EventLog.

(** ** [backend/camera.py]: class [SecurityCamera] *)

Module Camera.
Section WithCv.
Context `{cv : Cv}.

(** The attributes set by [__init__].  [cap] is [None] or the capture
    opened on the given index; [events] is the content of [events_file]
    and [recordings] the files under [recordings_dir] with the frames
    written to each. *)
Record SecurityCamera := {
  camera_index : Z;
  cap : option Z;
  is_recording : bool;
  motion_detected : bool;
  last_frame : option Gray;
  motion_threshold : Z;
  events : EventLog.store;
  recordings : gmap string (list Frame)
}.

Definition set_cap (c : option Z) (i : Z) (self : SecurityCamera) :=
  {| camera_index := i; cap := c; is_recording := is_recording self;
     motion_detected := motion_detected self; last_frame := last_frame self;
     motion_threshold := motion_threshold self; events := events self;
     recordings := recordings self |}.

Definition set_is_recording (b : bool) (self : SecurityCamera) :=
  {| camera_index := camera_index self; cap := cap self; is_recording := b;
     motion_detected := motion_detected self; last_frame := last_frame self;
     motion_threshold := motion_threshold self; events := events self;
     recordings := recordings self |}.

Definition set_motion_detected (b : bool) (self : SecurityCamera) :=
  {| camera_index := camera_index self; cap := cap self;
     is_recording := is_recording self; motion_detected := b;
     last_frame := last_frame self;
     motion_threshold := motion_threshold self; events := events self;
     recordings := recordings self |}.

Definition set_last_frame (g : option Gray) (self : SecurityCamera) :=
  {| camera_index := camera_index self; cap := cap self;
     is_recording := is_recording self;
     motion_detected := motion_detected self; last_frame := g;
     motion_threshold := motion_threshold self; events := events self;
     recordings := recordings self |}.

Definition set_events (s : EventLog.store) (self : SecurityCamera) :=
  {| camera_index := camera_index self; cap := cap self;
     is_recording := is_recording self;
     motion_detected := motion_detected self; last_frame := last_frame self;
     motion_threshold := motion_threshold self; events := s;
     recordings := recordings self |}.

Definition set_recordings (r : gmap string (list Frame)) (self : SecurityCamera) :=
  {| camera_index := camera_index self; cap := cap self;
     is_recording := is_recording self;
     motion_detected := motion_detected self; last_frame := last_frame self;
     motion_threshold := motion_threshold self; events := events self;
     recordings := r |}.

(** The [for i in range(1, 4)] loop of [_init_camera], leaving at the
    first index whose capture reports [isOpened()]. *)
Fixpoint try_indices (isOpened : Z -> bool) (candidates : list Z) : option Z :=
  match candidates with
  | [] => None
  | i :: rest => if isOpened i then Some i else try_indices isOpened rest
  end.

(** [_init_camera]; [isOpened i] tells whether [cv2.VideoCapture(i)]
    opens.  The [cap.set] calls do not change any attribute. *)
Definition _init_camera (isOpened : Z -> bool) (self : SecurityCamera)
  : SecurityCamera :=
  if isOpened (camera_index self)
  then set_cap (Some (camera_index self)) (camera_index self) self
  else match try_indices isOpened [1; 2; 3]%Z with
       | Some i => set_cap (Some i) i self
       | None => set_cap None (camera_index self) self
       end.

(** [__init__]: attribute defaults, then [_init_camera].  The file
    system found at start-up is an argument. *)
Definition __init__ (isOpened : Z -> bool) (camera_index : Z)
    (events_file : EventLog.store) (recordings_dir : gmap string (list Frame))
  : SecurityCamera :=
  _init_camera isOpened
    {| camera_index := camera_index; cap := None; is_recording := false;
       motion_detected := false; last_frame := None; motion_threshold := 30;
       events := events_file; recordings := recordings_dir |}.

(** [cv2.contourArea(contour) > self.motion_threshold] *)
Definition exceeds (threshold : Z) (c : Contour) : bool :=
  negb (Qle_bool (contourArea c) (inject_Z threshold)).

(** The [for contour in contours] loop with its [break]. *)
Fixpoint significant (threshold : Z) (contours : list Contour) : bool :=
  match contours with
  | [] => false
  | c :: rest => if exceeds threshold c then true else significant threshold rest
  end.

Definition detect_motion (frame : Frame) (self : SecurityCamera)
  : bool * SecurityCamera :=
  match last_frame self with
  | None => (false, set_last_frame (Some (cvtColor frame)) self)
  | Some last =>
      let gray := cvtColor frame in
      let gray := GaussianBlur gray (21, 21)%Z 0 in
      let frame_delta := absdiff last gray in
      let thresh := threshold frame_delta 25 255 in
      let thresh := dilate thresh (Ones 5 5) 2 in
      let contours := findContours thresh in
      let motion := significant (motion_threshold self) contours in
      (motion, set_last_frame (Some gray) self)
  end.

Definition _create_dummy_frame : Frame :=
  let frame := zeros 480 640 in
  let text := "No Camera Available" in
  let text_size := getTextSize text in
  let text_x := ((640 - fst text_size) / 2)%Z in
  let text_y := ((480 + snd text_size) / 2)%Z in
  let frame := putText frame text (text_x, text_y) in
  let frame := rectangle frame (280, 200)%Z (360, 280)%Z in
  circle frame (320, 240)%Z 30.

(** *** Threads

    [manual_record] and [generate_frames] start [_record_clip] on a new
    [threading.Thread]; nothing in the class takes a lock.  A worker is
    the trigger type it was started with and the statement of
    [_record_clip] it executes next; the scheduler picks which thread
    runs its next statement.  A call of [_log_event], a call of
    [manual_record] and a pass of the stream loop each count as one
    step here; calls of [_log_event] that overlap are followed access by
    access in [EventLog.run_calls]. *)

(** What a statement observes outside the object when it runs. *)
Record env := {
  iso_now : string;          (* datetime.now().isoformat() *)
  stamp_now : string;        (* datetime.now().strftime("%Y%m%d_%H%M%S") *)
  clock : Q;                 (* time.time(), in seconds *)
  opened : bool;             (* self.cap.isOpened() *)
  grabbed : option Frame     (* self.cap.read(): None when ret is False *)
}.

(** The local [out] of [_record_clip]. *)
Record VideoWriter := { filepath : string }.

Inductive pc :=
| AtGuard                                  (* if self.is_recording: return *)
| AtCapCheck                               (* if self.cap is None: ... *)
| AtSetFlag                                (* self.is_recording = True *)
| AtOpen                                   (* filename ... start_time, duration *)
| InLoop (start_time : Q) (out : VideoWriter)   (* the while test *)
| AtRelease (out : VideoWriter)            (* finally: out.release() *)
| AtClear                                  (* self.is_recording = False *)
| Finished
| Died.                                    (* left by an exception *)

Record worker := { trigger_type : string; at_pc : pc }.

Definition at_ (p : pc) (w : worker) : worker :=
  {| trigger_type := trigger_type w; at_pc := p |}.

Definition duration : Q := inject_Z 10.

(** [a < b] on readings of the clock. *)
Definition Qltb (a b : Q) : bool := negb (Qle_bool b a).

(** [out.write(frame)] *)
Definition write (out : VideoWriter) (frame : Frame)
    (files : gmap string (list Frame)) : gmap string (list Frame) :=
  alter (fun frames => frames ++ [frame]) (filepath out) files.

(** One statement of [_record_clip], run by worker [w]. *)
Definition _record_clip (e : env) (w : worker) (self : SecurityCamera)
  : worker * SecurityCamera :=
  match at_pc w with
  | AtGuard =>
      if is_recording self then (at_ Finished w, self)
      else (at_ AtCapCheck w, self)
  | AtCapCheck =>
      match cap self with
      | None =>
          match EventLog._log_event (iso_now e)
                  (trigger_type w +:+ "_no_camera") (events self) with
          | Some s => (at_ Finished w, set_events s self)
          | None => (at_ Died w, self)
          end
      | Some _ => (at_ AtSetFlag w, self)
      end
  | AtSetFlag => (at_ AtOpen w, set_is_recording true self)
  | AtOpen =>
      let timestamp := stamp_now e in
      let filename := trigger_type w +:+ "_" +:+ timestamp +:+ ".mp4" in
      let out := {| filepath := "../recordings/" +:+ filename |} in
      let start_time := clock e in
      (at_ (InLoop start_time out) w,
       set_recordings (<[filepath out := []]> (recordings self)) self)
  | InLoop start_time out =>
      if Qltb (clock e - start_time) duration then
        match cap self, opened e, grabbed e with
        | Some _, true, Some frame =>
            (w, set_recordings (write out frame (recordings self)) self)
        | _, _, _ => (w, self)
        end
      else (at_ (AtRelease out) w, self)
  | AtRelease out => (at_ AtClear w, self)
  | AtClear => (at_ Finished w, set_is_recording false self)
  | Finished | Died => (w, self)
  end.

(** A worker between the creation of its [cv2.VideoWriter] and
    [out.release()]. *)
Definition writing (w : worker) : bool :=
  match at_pc w with
  | InLoop _ _ | AtRelease _ => true
  | _ => false
  end.

(** [manual_record]: the reply ([None] when [_log_event] raises), the
    object afterwards and the threads started. *)
Definition manual_record (e : env) (self : SecurityCamera)
  : option string * SecurityCamera * list worker :=
  if is_recording self then (Some "Already recording", self, [])
  else
    match EventLog._log_event (iso_now e) "manual_record" (events self) with
    | Some s =>
        (Some "Recording started", set_events s self,
         [{| trigger_type := "manual"; at_pc := AtGuard |}])
    | None => (None, self, [])
    end.

(** [_record_motion_clip] only calls [_record_clip("motion")]. *)
Definition _record_motion_clip : worker :=
  {| trigger_type := "motion"; at_pc := AtGuard |}.

Definition CRLF : string := String (Ascii.ascii_of_nat 13) (String (Ascii.ascii_of_nat 10) "").

(** What one pass through the body of [while True] in [generate_frames]
    ends with. *)
Inductive produced :=
| Yield (part : string)
| Continue
| Break
| Raise.

Definition encode (frame : Frame) : produced :=
  match imencode frame with
  | None => Continue
  | Some buffer =>
      Yield ("--frame" +:+ CRLF +:+ "Content-Type: image/jpeg" +:+ CRLF +:+ CRLF
             +:+ tobytes buffer +:+ CRLF)
  end.

(** One pass through the body of the loop of [generate_frames]: how it
    ends, the object afterwards and the threads it started. *)
Definition generate_frames (e : env) (self : SecurityCamera)
  : produced * SecurityCamera * list worker :=
  match cap self with
  | None =>
      let frame := _create_dummy_frame in
      (encode frame, self, [])
  | Some _ =>
      if negb (opened e) then (Break, self, [])
      else
        match grabbed e with
        | None => (Break, self, [])
        | Some frame =>
            let '(motion, self) := detect_motion frame self in
            if motion && negb (motion_detected self) then
              let self := set_motion_detected true self in
              match EventLog._log_event (iso_now e) "motion_detected"
                      (events self) with
              | Some s =>
                  (encode frame, set_events s self, [_record_motion_clip])
              | None => (Raise, self, [])
              end
            else if negb motion then
              (encode frame, set_motion_detected false self, [])
            else (encode frame, self, [])
        end
  end.

(** The parts a consumer receives while the generator runs through the
    given observations, and whether it is still alive afterwards. *)
Fixpoint stream (obs : list env) (self : SecurityCamera)
  : list string * bool :=
  match obs with
  | [] => ([], true)
  | e :: rest =>
      match generate_frames e self with
      | (Yield part, self', _) =>
          let '(parts, alive) := stream rest self' in (part :: parts, alive)
      | (Continue, self', _) => stream rest self'
      | (Break, _, _) | (Raise, _, _) => ([], false)
      end
  end.

(** The object together with the [_record_clip] threads started so
    far. *)
Record system := { camera : SecurityCamera; threads : list worker }.

Inductive action :=
| CallManualRecord (e : env)       (* a caller runs manual_record() *)
| NextFrame (e : env)              (* the stream runs one loop body *)
| Schedule (i : nat) (e : env).    (* thread i runs its next statement *)

Definition step (a : action) (s : system) : system :=
  match a with
  | CallManualRecord e =>
      let '(_, self, started) := manual_record e (camera s) in
      {| camera := self; threads := threads s ++ started |}
  | NextFrame e =>
      let '(_, self, started) := generate_frames e (camera s) in
      {| camera := self; threads := threads s ++ started |}
  | Schedule i e =>
      match threads s !! i with
      | None => s
      | Some w =>
          let '(w', self) := _record_clip e w (camera s) in
          {| camera := self; threads := <[i := w']> (threads s) |}
      end
  end.

Definition run (schedule : list action) (s : system) : system :=
  foldl (fun s a => step a s) s schedule.

(** The number of [cv2.VideoWriter]s open at once. *)
Definition open_writers (s : system) : nat :=
  length (filter (fun w => writing w = true) (threads s)).

(** *** A thread on its own *)

(** The statements of one [_record_clip] thread run one after the other,
    each with what it observes, no other thread in between. *)
Fixpoint statements (obs : list env) (w : worker) (self : SecurityCamera)
  : worker * SecurityCamera :=
  match obs with
  | [] => (w, self)
  | e :: rest =>
      let '(w', self') := _record_clip e w self in statements rest w' self'
  end.

(** The frame a pass of the loop of [_record_clip] writes, if any. *)
Definition written (e : env) : option Frame :=
  if opened e then grabbed e else None.

(** *** [get_recordings] *)

(** What [os.stat] reports for a file. *)
Record stat_result := { st_size : Z; st_ctime : Q }.

(** The dictionaries [get_recordings] returns. *)
Record recording_entry := { filename : string; size : Z; created : string }.

(** [s.endswith(suffix)] *)
Definition endswith (s suffix : string) : bool :=
  let n := String.length s in
  let m := String.length suffix in
  (m <=? n)%nat && String.eqb (String.substring (n - m) m s) suffix.

(** [list.sort(key=..., reverse=True)] is stable: entries are put in
    descending order of their key and entries with equal keys keep the order
    they had.  [place x sorted] puts [x], which came before the entries of
    [sorted], in front of the first entry whose key is not greater. *)
Fixpoint place (x : recording_entry) (sorted : list recording_entry)
  : list recording_entry :=
  match sorted with
  | [] => [x]
  | y :: rest =>
      if String.leb (created y) (created x) then x :: y :: rest
      else y :: place x rest
  end.

Fixpoint sort_newest_first (entries : list recording_entry)
  : list recording_entry :=
  match entries with
  | [] => []
  | x :: rest => place x (sort_newest_first rest)
  end.

(** [get_recordings]: [listing] is [None] when [recordings_dir] does not
    exist, otherwise the names [os.listdir] returns, in its order, each
    with its [os.stat]; [isoformat t] is
    [datetime.fromtimestamp(t).isoformat()]. *)
Definition get_recordings (isoformat : Q -> string)
    (listing : option (list (string * stat_result))) : list recording_entry :=
  let recordings :=
    match listing with
    | None => []
    | Some names =>
        omap (fun '(name, st) =>
                if endswith name ".mp4"
                then Some {| filename := name; size := st_size st;
                             created := isoformat (st_ctime st) |}
                else None) names
    end in
  sort_newest_first recordings.

(** *** [get_camera] *)

(** [get_camera]: the module-level [camera] before the call, the object
    returned and [camera] afterwards.  The object is built with the default
    index 3 from what the devices and the file system are at that
    moment. *)
Definition get_camera (isOpened : Z -> bool) (events_file : EventLog.store)
    (recordings_dir : gmap string (list Frame))
    (camera : option SecurityCamera) : SecurityCamera * option SecurityCamera :=
  match camera with
  | None =>
      let created := __init__ isOpened 3 events_file recordings_dir in
      (created, Some created)
  | Some existing => (existing, Some existing)
  end.

End WithCv.
End Camera.

(** ** [backend/gui_with_preview.py]: [SecurityCameraGUI.detect_motion] *)

Module Gui.
Section WithCv.
Context `{cv : Cv}.

(** The two attributes [detect_motion] reads and writes.  A camera whose
    key is absent from [last_frames] was never initialised or has been
    released; [init_camera] stores [None] under the key. *)
Record SecurityCameraGUI := {
  last_frames : gmap string (option Gray);
  motion_threshold : Z
}.

Definition set_last_frames (m : gmap string (option Gray))
    (self : SecurityCameraGUI) :=
  {| last_frames := m; motion_threshold := motion_threshold self |}.

Definition detect_motion (cam_id : string) (frame : Frame)
    (self : SecurityCameraGUI) : bool * SecurityCameraGUI :=
  match last_frames self !! cam_id with
  | None | Some None =>
      (false,
       set_last_frames (<[cam_id := Some (cvtColor frame)]> (last_frames self)) self)
  | Some (Some last) =>
      let gray := cvtColor frame in
      let gray := GaussianBlur gray (21, 21)%Z 0 in
      let frame_delta := absdiff last gray in
      let thresh := threshold frame_delta 25 255 in
      let thresh := dilate thresh (Ones 5 5) 2 in
      let contours := findContours thresh in
      let motion := Camera.significant (motion_threshold self) contours in
      (motion, set_last_frames (<[cam_id := Some gray]> (last_frames self)) self)
  end.

(** *** Opening and releasing cameras *)

(** An entry of [self.cameras]. *)
Record camera_info := { index : Z; name : string; enabled : bool }.

(** The per-camera dictionaries of the window, with the detector state
    above: [caps] holds the index each capture was opened on. *)
Record monitor := {
  cameras : gmap string camera_info;
  caps : gmap string Z;
  frames : gmap string (option Frame);
  detector : SecurityCameraGUI;
  motion_detected : gmap string bool;
  recording : gmap string bool
}.

Inductive exn := KeyError (key : string).

(** The [for i in range(4)] loop of [init_camera], skipping the configured
    index and leaving at the first index that opens. *)
Fixpoint try_other_indices (isOpened : Z -> bool) (configured : Z)
    (candidates : list Z) : option Z :=
  match candidates with
  | [] => None
  | i :: rest =>
      if negb (i =? configured)%Z && isOpened i then Some i
      else try_other_indices isOpened configured rest
  end.

(** [init_camera(cam_id)]: the exception raised, if any, and the window
    afterwards. *)
Definition init_camera (isOpened : Z -> bool) (cam_id : string)
    (self : monitor) : option exn * monitor :=
  match cameras self !! cam_id with
  | None => (Some (KeyError cam_id), self)
  | Some cam_info =>
      let found :=
        if isOpened (index cam_info) then Some (index cam_info)
        else try_other_indices isOpened (index cam_info) [0; 1; 2; 3]%Z in
      match found with
      | None =>
          (None,
           {| cameras := <[cam_id := {| index := index cam_info;
                                        name := name cam_info;
                                        enabled := false |}]> (cameras self);
              caps := caps self; frames := frames self;
              detector := detector self;
              motion_detected := motion_detected self;
              recording := recording self |})
      | Some i =>
          (None,
           {| cameras := <[cam_id := {| index := i; name := name cam_info;
                                        enabled := enabled cam_info |}]>
                           (cameras self);
              caps := <[cam_id := i]> (caps self);
              frames := <[cam_id := None]> (frames self);
              detector := set_last_frames
                            (<[cam_id := None]> (last_frames (detector self)))
                            (detector self);
              motion_detected := <[cam_id := false]> (motion_detected self);
              recording := <[cam_id := false]> (recording self) |})
      end
  end.

(** [release_camera(cam_id)]: the [del] statements run in order, and the
    first one whose key is missing raises, with the earlier ones done. *)
Definition release_camera (cam_id : string) (self : monitor)
  : option exn * monitor :=
  match caps self !! cam_id with
  | None => (None, self)
  | Some _ =>
      let s1 := {| cameras := cameras self; caps := delete cam_id (caps self);
                   frames := frames self; detector := detector self;
                   motion_detected := motion_detected self;
                   recording := recording self |} in
      match frames s1 !! cam_id with
      | None => (Some (KeyError cam_id), s1)
      | Some _ =>
      let s2 := {| cameras := cameras s1; caps := caps s1;
                   frames := delete cam_id (frames s1); detector := detector s1;
                   motion_detected := motion_detected s1;
                   recording := recording s1 |} in
      match last_frames (detector s2) !! cam_id with
      | None => (Some (KeyError cam_id), s2)
      | Some _ =>
      let s3 := {| cameras := cameras s2; caps := caps s2; frames := frames s2;
                   detector := set_last_frames
                                 (delete cam_id (last_frames (detector s2)))
                                 (detector s2);
                   motion_detected := motion_detected s2;
                   recording := recording s2 |} in
      match motion_detected s3 !! cam_id with
      | None => (Some (KeyError cam_id), s3)
      | Some _ =>
      let s4 := {| cameras := cameras s3; caps := caps s3; frames := frames s3;
                   detector := detector s3;
                   motion_detected := delete cam_id (motion_detected s3);
                   recording := recording s3 |} in
      match recording s4 !! cam_id with
      | None => (Some (KeyError cam_id), s4)
      | Some _ =>
          (None,
           {| cameras := cameras s4; caps := caps s4; frames := frames s4;
              detector := detector s4; motion_detected := motion_detected s4;
              recording := delete cam_id (recording s4) |})
      end end end end
  end.

(** [on_camera_toggle]: [camera_vars] lists the check boxes in the order
    of [self.camera_vars.items()], each with the value [var.get()]
    returns.  An exception ends the loop. *)
Fixpoint on_camera_toggle (isOpened : Z -> bool)
    (camera_vars : list (string * bool)) (self : monitor)
  : option exn * monitor :=
  match camera_vars with
  | [] => (None, self)
  | (cam_id, checked) :: rest =>
      let '(raised, self') :=
        match checked, caps self !! cam_id with
        | true, None => init_camera isOpened cam_id self
        | false, Some _ => release_camera cam_id self
        | _, _ => (None, self)
        end in
      match raised with
      | Some x => (Some x, self')
      | None => on_camera_toggle isOpened rest self'
      end
  end.

End WithCv.
End Gui.

(** ** Python [str] methods used by [detect_camera_path]

    Text is a [string] of characters below U+0100. *)

Module Text.

(** [c.isspace()] *)
Definition is_space (c : Ascii.ascii) : bool :=
  let n := Ascii.N_of_ascii c in
  ((9 <=? n) && (n <=? 13) || (28 <=? n) && (n <=? 32)
   || (n =? 133) || (n =? 160))%N.

Fixpoint lstrip (s : string) : string :=
  match s with
  | EmptyString => EmptyString
  | String c rest => if is_space c then lstrip rest else s
  end.

Fixpoint rstrip (s : string) : string :=
  match s with
  | EmptyString => EmptyString
  | String c rest =>
      match rstrip rest with
      | EmptyString => if is_space c then EmptyString else String c EmptyString
      | kept => String c kept
      end
  end.

(** [s.strip()] *)
Definition strip (s : string) : string := rstrip (lstrip s).

Definition LF : Ascii.ascii := Ascii.ascii_of_nat 10.
Definition TAB : string := String (Ascii.ascii_of_nat 9) EmptyString.

(** [s.split('\n')] *)
Fixpoint split_lines (s : string) : list string :=
  match s with
  | EmptyString => [EmptyString]
  | String c rest =>
      if Ascii.eqb c LF then EmptyString :: split_lines rest
      else match split_lines rest with
           | [] => [String c EmptyString]
           | line :: lines => String c line :: lines
           end
  end.

(** [s.startswith(prefix)] *)
Definition startswith (s prefix : string) : bool := String.prefix prefix s.

Definition lower_char (c : Ascii.ascii) : Ascii.ascii :=
  let n := Ascii.N_of_ascii c in
  if ((65 <=? n) && (n <=? 90) || (192 <=? n) && (n <=? 214)
      || (216 <=? n) && (n <=? 222))%N
  then Ascii.ascii_of_N (n + 32)
  else c.

(** [s.lower()] *)
Fixpoint lower (s : string) : string :=
  match s with
  | EmptyString => EmptyString
  | String c rest => String (lower_char c) (lower rest)
  end.

(** [needle in hay] *)
Fixpoint contains (needle hay : string) : bool :=
  String.prefix needle hay ||
  match hay with
  | EmptyString => false
  | String _ rest => contains needle rest
  end.

End Text.

(** ** [backend/app.py]: capture loop and [/record] handler *)

Module App.
Section WithCv.
Context `{cv : Cv}.

Inductive exn :=
| AttributeError                         (* a method called on None *)
| KeyError (key : string)
| HTTPException (status_code : Z) (detail : string).

(** The module-level state shared by the capture threads and the request
    handlers: the function attribute [prev_frame], the two flag
    dictionaries, and the files written so far. *)
Record globals := {
  prev_frame : option Gray;
  motion_detected : gmap string bool;
  recording : gmap string bool;
  disk : gmap string (list Frame)
}.

Definition output_dirs : gmap string string :=
  {[ "cam1" := "../recordings/cam1"; "cam2" := "../recordings/cam2" ]}.

(** State at import time, before either thread has read a frame. *)
Definition initial (files : gmap string (list Frame)) : globals :=
  {| prev_frame := None;
     motion_detected := {[ "cam1" := false; "cam2" := false ]};
     recording := {[ "cam1" := false; "cam2" := false ]};
     disk := files |}.

(** Statements run on the globals and either return or raise. *)
Definition M (A : Type) : Type := globals -> (exn + A) * globals.

Definition ret {A} (a : A) : M A := fun g => (inr a, g).
Definition raise {A} (x : exn) : M A := fun g => (inl x, g).
Definition bind {A B} (m : M A) (k : A -> M B) : M B :=
  fun g => match m g with
           | (inl x, g') => (inl x, g')
           | (inr a, g') => k a g'
           end.

Notation "x <- m ;; k" := (bind m (fun x => k))
  (at level 62, m at next level, right associativity, only parsing).

Definition getitem {V} (d : globals -> gmap string V) (key : string) : M V :=
  fun g => match d g !! key with
           | Some v => (inr v, g)
           | None => (inl (KeyError key), g)
           end.

Definition set_prev_frame (gray : Gray) : M unit :=
  fun g => (inr tt, {| prev_frame := Some gray;
                       motion_detected := motion_detected g;
                       recording := recording g; disk := disk g |}).

Definition set_motion_detected (key : string) (b : bool) : M unit :=
  fun g => (inr tt, {| prev_frame := prev_frame g;
                       motion_detected := <[key := b]> (motion_detected g);
                       recording := recording g; disk := disk g |}).

Definition set_recording (key : string) (b : bool) : M unit :=
  fun g => (inr tt, {| prev_frame := prev_frame g;
                       motion_detected := motion_detected g;
                       recording := <[key := b]> (recording g);
                       disk := disk g |}).

Definition set_disk (f : gmap string (list Frame) -> gmap string (list Frame))
  : M unit :=
  fun g => (inr tt, {| prev_frame := prev_frame g;
                       motion_detected := motion_detected g;
                       recording := recording g; disk := f (disk g) |}).

(** A [cv2.VideoWriter]: writes after [release()] are dropped. *)
Record VideoWriter := { filename : string; released : bool }.

(** [cv2.VideoWriter(filename, ...)] *)
Definition new_writer (name : string) : M VideoWriter :=
  _ <- set_disk (fun files => <[name := []]> files) ;;
  ret {| filename := name; released := false |}.

(** [out.write(frame)] on the local [out], [None] until a writer is
    created. *)
Definition out_write (out : option VideoWriter) (frame : Frame) : M unit :=
  match out with
  | None => raise AttributeError
  | Some w =>
      if released w then ret tt
      else set_disk (alter (fun frames => frames ++ [frame]) (filename w))
  end.

(** [out.release()] *)
Definition out_release (out : option VideoWriter) : M (option VideoWriter) :=
  match out with
  | None => raise AttributeError
  | Some w => ret (Some {| filename := filename w; released := true |})
  end.

Record env := {
  stamp_now : string;        (* datetime.now().strftime('%Y%m%d_%H%M%S') *)
  grabbed : option Frame     (* camera.read(): None when ret is False *)
}.

(** [cv2.contourArea(c) > 5000] *)
Definition exceeds (c : Contour) : bool :=
  negb (Qle_bool (contourArea c) (inject_Z 5000)).

(** How one pass through the body of [while True] ends. *)
Inductive flow := Next | Stop.

(** Lines 110-120: start, write, stop, on the flags as they are when each
    [if] is reached. *)
Definition record_frame (e : env) (cam_key : string) (frame : Frame)
    (out : option VideoWriter) : M (option VideoWriter) :=
  motion <- getitem motion_detected cam_key ;;
  start <- (if motion
            then (rec <- getitem recording cam_key ;; ret (negb rec))
            else ret false) ;;
  out <- (if start : bool then
            _ <- set_recording cam_key true ;;
            dir <- getitem (fun _ => output_dirs) cam_key ;;
            w <- new_writer (dir +:+ "/motion_" +:+ stamp_now e +:+ ".avi") ;;
            ret (Some w)
          else ret out) ;;
  rec <- getitem recording cam_key ;;
  _ <- (if rec : bool then out_write out frame else ret tt) ;;
  motion <- getitem motion_detected cam_key ;;
  stop <- (if motion then ret false else getitem recording cam_key) ;;
  if stop : bool then
    _ <- set_recording cam_key false ;;
    out_release out
  else ret out.

(** One pass through the body of the loop of [detect_motion_and_record]
    for the thread of [cam_key]; [out] is that thread's local. *)
Definition detect_motion_and_record (e : env) (cam_key : string)
    (out : option VideoWriter) : M (flow * option VideoWriter) :=
  match grabbed e with
  | None => ret (Stop, out)
  | Some frame =>
      let gray := cvtColor frame in
      let gray := GaussianBlur gray (21, 21)%Z 0 in
      fun g =>
        match prev_frame g with
        | None => (_ <- set_prev_frame gray ;; ret (Next, out)) g
        | Some prev =>
            (let frame_delta := absdiff prev gray in
             let thresh := threshold frame_delta 25 255 in
             let thresh := dilate thresh DefaultKernel 2 in
             let contours := findContours thresh in
             _ <- set_prev_frame gray ;;
             _ <- set_motion_detected cam_key (existsb exceeds contours) ;;
             out <- record_frame e cam_key frame out ;;
             ret (Next, out)) g
        end
  end.

(** The [/record] handler. *)
Definition manual_record (cam : string) : M string :=
  if bool_decide (cam ∈ ["cam1"; "cam2"]) then
    _ <- set_recording cam true ;;
    ret ("Manual recording started for " +:+ cam)
  else raise (HTTPException 400 "Invalid camera key").

(** The thread of [cam_key] running through a list of observations,
    stopping at the first [break] or exception. *)
Fixpoint capture (obs : list env) (cam_key : string)
    (out : option VideoWriter) : M (option VideoWriter) :=
  match obs with
  | [] => ret out
  | e :: rest =>
      r <- detect_motion_and_record e cam_key out ;;
      match r with
      | (Next, out') => capture rest cam_key out'
      | (Stop, out') => ret out'
      end
  end.

(** The [/toggle_motion] handler: the message and the status it
    returns. *)
Definition toggle_motion (cam : string) : M (string * bool) :=
  if bool_decide (cam ∈ ["cam1"; "cam2"]) then
    flag <- getitem motion_detected cam ;;
    _ <- set_motion_detected cam (negb flag) ;;
    status <- getitem motion_detected cam ;;
    ret ("Motion detection toggled for " +:+ cam, status)
  else raise (HTTPException 400 "Invalid camera key").

(** *** [detect_camera_path] *)

(** The [for name in keywords] loop on one indented line;
    [current_device.lower()] raises when [current_device] is still
    [None]. *)
Fixpoint match_keywords (keywords : list string)
    (current_device : option string) (path : string)
    (matches : gmap string string) : exn + gmap string string :=
  match keywords with
  | [] => inr matches
  | name :: rest =>
      match current_device with
      | None => inl AttributeError
      | Some device =>
          match_keywords rest current_device path
            (if Text.contains (Text.lower name) (Text.lower device)
             then <[name := path]> matches else matches)
      end
  end.

(** The body of [for line in lines], on [current_device] and
    [matches]. *)
Definition scan_line (keywords : list string) (line : string)
    (state : option string * gmap string string)
  : exn + (option string * gmap string string) :=
  let '(current_device, matches) := state in
  if String.eqb (Text.strip line) "" then inr state
  else if negb (Text.startswith line Text.TAB) then inr (Some line, matches)
  else
    let path := Text.strip line in
    match match_keywords keywords current_device path matches with
    | inl raised => inl raised
    | inr matches' => inr (current_device, matches')
    end.

Fixpoint scan (keywords : list string) (lines : list string)
    (state : option string * gmap string string)
  : exn + (option string * gmap string string) :=
  match lines with
  | [] => inr state
  | line :: rest =>
      match scan_line keywords line state with
      | inl raised => inl raised
      | inr state' => scan keywords rest state'
      end
  end.

(** [detect_camera_path(keywords)], given the standard output of
    [v4l2-ctl --list-devices]. *)
Definition detect_camera_path (keywords : list string) (stdout : string)
  : exn + gmap string string :=
  let lines := Text.split_lines (Text.strip stdout) in
  match scan keywords lines (None, ∅) with
  | inl raised => inl raised
  | inr (_, matches) => inr matches
  end.

(** The module-level [cam1_path] and [cam2_path]. *)
Definition cam_paths (stdout : string) : exn + (string * string) :=
  match detect_camera_path ["Brio"; "C170"] stdout with
  | inl raised => inl raised
  | inr camera_map =>
      inr (default "/dev/video2" (camera_map !! "Brio"),
           default "/dev/video3" (camera_map !! "C170"))
  end.

End WithCv.
End App.

(** ** Notions used in the statements *)

Section Notions.
Context `{cv : Cv}.

(** The mask whose contours the detectors measure: the difference between
    the reference and the blurred grayscale of the frame, thresholded at 25
    and dilated twice with kernel [k]. *)
Definition mask (k : kernel) (reference : Gray) (frame : Frame) : Gray :=
  dilate (threshold (absdiff reference (GaussianBlur (cvtColor frame) (21, 21)%Z 0))
            25 255) k 2.

(** Two calls of [manual_record] whose threads take turns, statement by
    statement, from the guard of [_record_clip] to the creation of the
    writer. *)
Definition two_triggers (e : Camera.env) : list Camera.action :=
  [Camera.CallManualRecord e; Camera.CallManualRecord e;
   Camera.Schedule 0 e; Camera.Schedule 1 e;      (* if self.is_recording *)
   Camera.Schedule 0 e; Camera.Schedule 1 e;      (* if self.cap is None *)
   Camera.Schedule 0 e; Camera.Schedule 1 e;      (* self.is_recording = True *)
   Camera.Schedule 0 e; Camera.Schedule 1 e].     (* out = cv2.VideoWriter(...) *)

(** A worker that has set the flag and not yet cleared it. *)
Definition in_session (w : Camera.worker) : bool :=
  match Camera.at_pc w with
  | Camera.AtOpen | Camera.InLoop _ _ | Camera.AtRelease _ | Camera.AtClear => true
  | _ => false
  end.

Definition sessions (s : Camera.system) : nat :=
  length (filter (fun w => in_session w = true) (Camera.threads s)).

(** For comparison: the same threads when the test of the flag, the test
    of [cap] and the assignment of the flag (lines 148-156) run with no
    other thread in between, as a lock around them would have it. *)
Definition enter (e : Camera.env) (w : Camera.worker)
    (self : Camera.SecurityCamera) : Camera.worker * Camera.SecurityCamera :=
  let '(w1, self1) := Camera._record_clip e w self in
  let '(w2, self2) := Camera._record_clip e w1 self1 in
  Camera._record_clip e w2 self2.

Definition step_locked (a : Camera.action) (s : Camera.system) : Camera.system :=
  match a with
  | Camera.Schedule i e =>
      match Camera.threads s !! i with
      | None => s
      | Some w =>
          let '(w', self) :=
            match Camera.at_pc w with
            | Camera.AtGuard => enter e w (Camera.camera s)
            | _ => Camera._record_clip e w (Camera.camera s)
            end in
          {| Camera.camera := self; Camera.threads := <[i := w']> (Camera.threads s) |}
      end
  | _ => Camera.step a s
  end.

Definition run_locked (schedule : list Camera.action) (s : Camera.system)
  : Camera.system :=
  foldl (fun s a => step_locked a s) s schedule.

(** The flag is set exactly while one worker is in its session, and no
    worker is stopped between the guard and the assignment. *)
Definition one_holder (s : Camera.system) : Prop :=
  sessions s = (if Camera.is_recording (Camera.camera s) then 1 else 0) /\
  Forall (fun w => Camera.at_pc w <> Camera.AtCapCheck /\
                   Camera.at_pc w <> Camera.AtSetFlag) (Camera.threads s).

(** A call of [manual_record] followed by the first two statements of the
    thread it starts, when [n] threads were started before. *)
Definition manual_trigger (n : nat) (e0 e1 e2 : Camera.env) : list Camera.action :=
  [Camera.CallManualRecord e0; Camera.Schedule n e1; Camera.Schedule n e2].

(** The start-up state of the class: the constructed object, no thread. *)
Definition started (self : Camera.SecurityCamera) : Camera.system :=
  {| Camera.camera := self; Camera.threads := [] |}.

(** The statements of [_record_clip] a worker may be at when the object
    has no capture. *)
Definition before_recording (w : Camera.worker) : Prop :=
  match Camera.at_pc w with
  | Camera.AtGuard | Camera.AtCapCheck | Camera.Finished => True
  | _ => False
  end.

(** What holds of the object and its threads for as long as it has no
    capture: nothing records, the files are those found at start-up, the
    log can be extended. *)
Definition idle_without_device (files : gmap string (list Frame))
    (s : Camera.system) : Prop :=
  Camera.cap (Camera.camera s) = None /\
  Camera.is_recording (Camera.camera s) = false /\
  Camera.recordings (Camera.camera s) = files /\
  EventLog.appendable (Camera.events (Camera.camera s)) = true /\
  Forall before_recording (Camera.threads s).

(** The multipart chunk [generate_frames] yields for an encoded frame. *)
Definition part_of (buffer : Jpeg) : string :=
  "--frame" +:+ Camera.CRLF +:+ "Content-Type: image/jpeg" +:+ Camera.CRLF
  +:+ Camera.CRLF +:+ tobytes buffer +:+ Camera.CRLF.

(** The part a pass of the stream loop of [camera.py] yields for what it
    reads, if the read and the encoding both succeed. *)
Definition part_for (e : Camera.env) : option string :=
  match Camera.written e with
  | Some frame =>
      match imencode frame with
      | Some buffer => Some (part_of buffer)
      | None => None
      end
  | None => None
  end.

(** The path of the clip a [_record_clip] thread of the given trigger type
    creates when it reads the given time stamp. *)
Definition clip_path (trigger_type : string) (e : Camera.env) : string :=
  "../recordings/" +:+ (trigger_type +:+ "_" +:+ Camera.stamp_now e +:+ ".mp4").

(** In [app.py], flag and writer of a camera agree: the flag is set and the
    thread holds an open writer, or the flag is clear and the thread holds
    no writer or a released one. *)
Definition in_step (cam : string) (out : option App.VideoWriter)
    (g : App.globals) : Prop :=
  (App.recording g !! cam = Some true /\
   exists w, out = Some w /\ App.released w = false) \/
  (App.recording g !! cam = Some false /\
   forall w, out = Some w -> App.released w = true).

(** The motion flags the loop of [app.py] computes for a run of frames,
    each compared with the blurred grayscale of the one before. *)
Fixpoint episode (reference : Gray) (frames : list Frame) : list bool :=
  match frames with
  | [] => []
  | frame :: rest =>
      existsb App.exceeds (findContours (mask DefaultKernel reference frame))
      :: episode (GaussianBlur (cvtColor frame) (21, 21)%Z 0) rest
  end.

(** What the thread observes when it reads the given frames at the given
    time stamps. *)
Definition reads (stamped : list (string * Frame)) : list App.env :=
  map (fun p => {| App.stamp_now := p.1; App.grabbed := Some p.2 |}) stamped.

(** The per-camera dictionaries of the window have the same keys. *)
Definition same_keys (self : Gui.monitor) : Prop :=
  dom (Gui.frames self) = dom (Gui.caps self) /\
  dom (Gui.last_frames (Gui.detector self)) = dom (Gui.caps self) /\
  dom (Gui.motion_detected self) = dom (Gui.caps self) /\
  dom (Gui.recording self) = dom (Gui.caps self).

(** Cameras being opened and released, as the check boxes of the window
    make it happen. *)
Inductive request :=
| Open (isOpened : Z -> bool) (cam_id : string)
| Close (cam_id : string).

Definition serve (r : request) (self : Gui.monitor) : option Gui.exn * Gui.monitor :=
  match r with
  | Open isOpened cam_id => Gui.init_camera isOpened cam_id self
  | Close cam_id => Gui.release_camera cam_id self
  end.

Definition serve_all (requests : list request) (self : Gui.monitor) : Gui.monitor :=
  foldl (fun self r => (serve r self).2) self requests.

(** In the list [get_recordings] returns, [a] may stand before [b]: its
    [created] string is not smaller. *)
Definition newer_or_same (a b : Camera.recording_entry) : Prop :=
  String.leb (Camera.created b) (Camera.created a) = true.

End Notions.

(** ** A small instance of [Cv]

  One-row images on which every operation computes.  It stands in for
  OpenCV only where a statement has to be run on concrete frames; the
  results below are stated for every instance of [Cv]. *)

Module OneRow.

Definition pixel : Type := Z * Z * Z.                 (* B, G, R *)

Definition luminance (p : pixel) : Z :=
  let '(b, g, r) := p in ((b * 1868 + g * 9617 + r * 4899 + 8192) / 16384)%Z.

Definition mean (row : list Z) : Z :=
  match row with
  | [] => 0%Z
  | _ => (foldr Z.add 0 row / Z.of_nat (length row))%Z
  end.

Definition lit (row : list Z) : nat :=
  length (filter (fun x => x ≠ 0%Z) row).

Definition ops : Cv := {|
  Frame := list pixel;
  Gray := list Z;
  Contour := nat;
  Jpeg := list pixel;
  cvtColor := map luminance;
  GaussianBlur := fun row _ _ => map (fun _ => mean row) row;
  absdiff := zip_with (fun x y => Z.abs (x - y));
  threshold := fun row cutoff maxval =>
                 map (fun x => if (cutoff <? x)%Z then maxval else 0%Z) row;
  dilate := fun row _ _ => row;
  findContours := fun row => match lit row with O => [] | n => [n] end;
  contourArea := fun n => inject_Z (Z.of_nat n);
  imencode := Some;
  tobytes := fun _ => "JFIF";
  zeros := fun _ width => replicate (Z.to_nat width) (0, 0, 0)%Z;
  getTextSize := fun text => (Z.of_nat (String.length text), 1%Z);
  putText := fun frame _ _ => frame;
  rectangle := fun frame _ _ => frame;
  circle := fun frame _ _ => frame
|}.

Definition black : pixel := (0, 0, 0)%Z.
Definition white : pixel := (255, 255, 255)%Z.

(** A dark row, and the same row with a bright object covering most of
    it. *)
Definition empty_scene : list pixel := replicate 40 black.
Definition busy_scene : list pixel := replicate 35 white ++ replicate 5 black.
(** A dark row with a single bright pixel. *)
Definition speck : list pixel := white :: replicate 3 black.

(** What a statement observes at clock reading [t] when the device
    delivers [frame]. *)
Definition at_time (t : Q) (frame : option (list pixel)) : @Camera.env ops :=
  @Camera.Build_env ops "2024-01-01T00:00:00" "20240101_000000" t true frame.

(** No device opens / only the device on index [i] opens. *)
Definition nothing_opens : Z -> bool := fun _ => false.
Definition only (i : Z) : Z -> bool := fun j => (i =? j)%Z.

Definition no_camera : @Camera.SecurityCamera ops :=
  Camera.__init__ nothing_opens 3 EventLog.Missing ∅.
Definition with_camera : @Camera.SecurityCamera ops :=
  Camera.__init__ (only 3) 3 EventLog.Missing ∅.

(** A row of alternating dark and bright pixels. *)
Definition striped : list pixel :=
  concat (replicate 20 [black; white]).

(** The camera after it has seen the dark row once. *)
Definition seeded_camera : @Camera.SecurityCamera ops :=
  (Camera.detect_motion (empty_scene : @Frame ops) with_camera).2.

(** A motion-triggered clip: the dark row seeds the reference, the bright
    object appears and starts thread 0, the thread runs up to its loop
    (started at clock 0) and writes a frame; the scene then stays as it is,
    so the next pass of the stream reads no motion. *)
Definition motion_clip : list (@Camera.action ops) :=
  [Camera.NextFrame (at_time 0 (Some empty_scene));
   Camera.NextFrame (at_time 0 (Some busy_scene));
   Camera.Schedule 0 (at_time 0 None);
   Camera.Schedule 0 (at_time 0 None);
   Camera.Schedule 0 (at_time 0 None);
   Camera.Schedule 0 (at_time 0 None);
   Camera.Schedule 0 (at_time 1 (Some busy_scene));
   Camera.NextFrame (at_time 2 (Some busy_scene))].

(** [app.py]: an observation, the globals once the dark row has been read,
    and a writer as the loop creates it. *)
Definition grab (frame : list pixel) : @App.env ops :=
  @App.Build_env ops "20240101_000000" (Some frame).

Definition seeded_globals : @App.globals ops :=
  (App.detect_motion_and_record (grab empty_scene) "cam1" None (App.initial ∅)).2.

Definition clip : App.VideoWriter :=
  {| App.filename := "../recordings/cam1/motion_20240101_000000.avi";
     App.released := false |}.

(** The globals while [clip] is being written by the thread of cam1. *)
Definition recording_globals : @App.globals ops :=
  {| App.prev_frame := App.prev_frame seeded_globals;
     App.motion_detected := <["cam1" := true]> (App.motion_detected seeded_globals);
     App.recording := <["cam1" := true]> (App.recording seeded_globals);
     App.disk := {[ App.filename clip := [] ]} |}.

(** The same operations on rows whose pixels each stand for a block of
    200: areas reach the 5000 threshold of [app.py]. *)
Definition blocks : Cv := {|
  Frame := list pixel;
  Gray := list Z;
  Contour := nat;
  Jpeg := list pixel;
  cvtColor := map luminance;
  GaussianBlur := fun row _ _ => map (fun _ => mean row) row;
  absdiff := zip_with (fun x y => Z.abs (x - y));
  threshold := fun row cutoff maxval =>
                 map (fun x => if (cutoff <? x)%Z then maxval else 0%Z) row;
  dilate := fun row _ _ => row;
  findContours := fun row => match lit row with O => [] | n => [n] end;
  contourArea := fun n => inject_Z (200 * Z.of_nat n);
  imencode := Some;
  tobytes := fun _ => "JFIF";
  zeros := fun _ width => replicate (Z.to_nat width) (0, 0, 0)%Z;
  getTextSize := fun text => (Z.of_nat (String.length text), 1%Z);
  putText := fun frame _ _ => frame;
  rectangle := fun frame _ _ => frame;
  circle := fun frame _ _ => frame
|}.

Definition dark_wall : list pixel := replicate 40 black.
Definition bright_wall : list pixel := replicate 40 white.

Definition look (frame : list pixel) : @App.env blocks :=
  @App.Build_env blocks "20240101_000000" (Some frame).

(** The globals of [app.py] once the thread of cam1 has read a dark
    wall. *)
Definition wall_globals : @App.globals blocks :=
  (App.detect_motion_and_record (look dark_wall) "cam1" None (App.initial ∅)).2.

(** The window of [gui_with_preview.py] before any camera is opened. *)
Definition window0 : @Gui.monitor ops :=
  {| Gui.cameras := {[ "video2" := {| Gui.index := 2; Gui.name := "Brio 100";
                                      Gui.enabled := true |};
                       "video3" := {| Gui.index := 3; Gui.name := "Webcam C170";
                                      Gui.enabled := true |} ]};
     Gui.caps := ∅; Gui.frames := ∅;
     Gui.detector := @Gui.Build_SecurityCameraGUI ops ∅ 30;
     Gui.motion_detected := ∅; Gui.recording := ∅ |}.

(** A device block as [v4l2-ctl --list-devices] prints it. *)
Definition brio_line : string := "Brio 100 (usb-0000:00:14.0-1):".
Definition brio_paths : list string :=
  [Text.TAB +:+ "/dev/video2"; Text.TAB +:+ "/dev/video3";
   Text.TAB +:+ "/dev/media1"].
Definition listing : string :=
  brio_line +:+ String Text.LF
    (Text.TAB +:+ "/dev/video2" +:+ String Text.LF
       (Text.TAB +:+ "/dev/video3" +:+ String Text.LF
          (Text.TAB +:+ "/dev/media1" +:+ String Text.LF ""))).

(** A recordings directory as [os.listdir] and [os.stat] report it, and a
    stand-in for the ISO format of a time. *)
Definition folder : list (string * Camera.stat_result) :=
  [("motion_20240101_000000.mp4", {| Camera.st_size := 10; Camera.st_ctime := 1 |});
   ("notes.txt", {| Camera.st_size := 1; Camera.st_ctime := 5 |});
   ("manual_20240101_000500.mp4", {| Camera.st_size := 20; Camera.st_ctime := 3 |});
   ("motion_20240101_000200.mp4", {| Camera.st_size := 30; Camera.st_ctime := 2 |})].
Definition digit_of (t : Q) : string :=
  String (Ascii.ascii_of_N (48 + Z.to_N (Qnum t / Zpos (Qden t)))) "".

End OneRow.

(** * Results *)

(** ** Event log *)

Section EventLogFacts.
Import EventLog.

Lemma log_event_appendable ts ty s :
  appendable s = true -> exists s', _log_event ts ty s = Some s'.
Proof.
  destruct s as [| |[]|]; simpl; intros Hs; try discriminate; eauto.
Qed.

Lemma log_event_result_appendable ts ty s s' :
  _log_event ts ty s = Some s' -> appendable s' = true.
Proof.
  unfold _log_event.
  destruct (load_events s); try discriminate.
  destruct (open_w s); intros [= <-]. reflexivity.
Qed.

(** A file that does not load is replaced by a one-element list. *)
Lemma log_event_unreadable ts ty :
  _log_event ts ty Unreadable = Some (Loaded (JArr [event ts ty])).
Proof. reflexivity. Qed.

Lemma log_event_missing ts ty :
  _log_event ts ty Missing = Some (Loaded (JArr [event ts ty])).
Proof. reflexivity. Qed.

(** A file holding something else than a list makes the call raise. *)
Lemma log_event_not_a_list ts ty fields :
  _log_event ts ty (Loaded (JObj fields)) = None.
Proof. reflexivity. Qed.

Lemma log_event_persisted ts ty s old :
  persisted s = Some old ->
  _log_event ts ty s = Some (Loaded (JArr (old ++ [event ts ty]))).
Proof.
  destruct s as [| |[]|]; simpl; intros [= <-]; reflexivity.
Qed.

Lemma log_event_loaded ts ty s old :
  appendable s = true ->
  load_events s = JArr old ->
  _log_event ts ty s = Some (Loaded (JArr (old ++ [event ts ty]))).
Proof.
  intros Hs Hold. unfold _log_event. rewrite Hold.
  destruct s as [| |j|]; try discriminate; reflexivity.
Qed.

Lemma log_all_persisted batch : forall s old,
  persisted s = Some old ->
  exists s', log_all batch s = Some s' /\
             persisted s' = Some (old ++ map (fun p => event p.1 p.2) batch).
Proof.
  induction batch as [|[ts ty] rest IH]; intros s old Hs; simpl.
  - exists s. rewrite app_nil_r. auto.
  - rewrite (log_event_persisted ts ty s old Hs).
    destruct (IH (Loaded (JArr (old ++ [event ts ty]))) (old ++ [event ts ty]))
      as (s' & Hrun & Hp); [reflexivity|].
    exists s'. split; [exact Hrun|].
    rewrite Hp, <- app_assoc. reflexivity.
Qed.

(** Appends that do not overlap: each keeps the events already stored in
    the file, unchanged and in their order, and puts the new event last;
    appending a batch call after call therefore leaves the file holding the
    old events followed by the batch in call order, as one list that reads
    back whole. *)
Theorem log_event_append_only (s : store) (old : list json)
    (ts ty : string) (batch : list (string * string)) :
  persisted s = Some old ->
  (exists s', _log_event ts ty s = Some s' /\
              persisted s' = Some (old ++ [event ts ty])) /\
  (exists s', log_all batch s = Some s' /\
              persisted s' = Some (old ++ map (fun p => event p.1 p.2) batch)).
Proof.
  intros Hs. split.
  - eexists. split; [apply log_event_persisted, Hs|reflexivity].
  - apply log_all_persisted, Hs.
Qed.

Lemma log_event_append_only_witness :
  (exists s', _log_event "t2" "manual_record" (Loaded (JArr [event "t1" "motion_detected"]))
              = Some s' /\
              persisted s' = Some ([event "t1" "motion_detected"] ++ [event "t2" "manual_record"])) /\
  (exists s', log_all [("t2", "manual_record"); ("t3", "manual_no_camera")]
                (Loaded (JArr [event "t1" "motion_detected"])) = Some s' /\
              persisted s' = Some ([event "t1" "motion_detected"] ++
                 map (fun p => event p.1 p.2)
                     [("t2", "manual_record"); ("t3", "manual_no_camera")])).
Proof.
  apply (log_event_append_only
           (Loaded (JArr [event "t1" "motion_detected"]))
           [event "t1" "motion_detected"]).
  reflexivity.
Defined.

(** A call that no other call overlaps makes the three accesses of
    [call_step] in a row. *)
Lemma alone_log_event ts ty s : alone ts ty s = _log_event ts ty s.
Proof.
  unfold alone, _log_event.
  destruct s as [| |j|]; [reflexivity|reflexivity| |reflexivity].
  destruct j; reflexivity.
Qed.

(** A file that cannot be opened for writing makes the call raise, and
    stays as it is for the calls that follow. *)
Lemma log_event_unwritable ts ty : _log_event ts ty Unwritable = None.
Proof. reflexivity. Qed.

(** C9.  Two calls of [_log_event] in progress at once, on a file that
    reads back as [old].  When both load before either writes, both return
    and the file holds [old] followed by the event of the call that wrote
    last: the other event is gone.  When the second call loads while the
    first has the file open for writing, it finds an empty file, starts from
    the empty list and leaves its own event alone in the file: the events
    stored before and the event of the first call are gone.  Neither file
    is the old events followed by the two new ones, in either order. *)
Theorem overlapping_appends_lose_events (s : store) (old : list json)
    (ts0 ty0 ts1 ty1 : string) :
  persisted s = Some old ->
  let calls := [begin ts0 ty0; begin ts1 ty1] in
  let unlucky := run_calls both_load_first calls s in
  let torn := run_calls load_during_write calls s in
  (map next unlucky.1 = [Returned; Returned] /\
   persisted unlucky.2 = Some (old ++ [event ts1 ty1])) /\
  (map next torn.1 = [Returned; Returned] /\
   persisted torn.2 = Some [event ts1 ty1]) /\
  (forall both : list json,
     both ∈ [old ++ [event ts0 ty0; event ts1 ty1];
             old ++ [event ts1 ty1; event ts0 ty0]] ->
     persisted unlucky.2 <> Some both /\ persisted torn.2 <> Some both).
Proof.
  intros Hs calls unlucky torn.
  assert (Hu : unlucky = ([move (begin ts0 ty0) Returned;
                           move (begin ts1 ty1) Returned],
                          Loaded (JArr (old ++ [event ts1 ty1])))).
  { subst unlucky calls.
    destruct s as [| |[]|]; simpl in Hs; try discriminate;
      injection Hs as <-; reflexivity. }
  assert (Ht : torn = ([move (begin ts0 ty0) Returned;
                        move (begin ts1 ty1) Returned],
                       Loaded (JArr [event ts1 ty1]))).
  { subst torn calls.
    destruct s as [| |[]|]; simpl in Hs; try discriminate; reflexivity. }
  rewrite Hu, Ht. cbn [fst snd map next move persisted].
  split; [auto|]. split; [auto|].
  intros both Hboth.
  assert (Hlen : length both = S (S (length old))).
  { apply elem_of_cons in Hboth as [->|Hboth];
      [|apply list_elem_of_singleton in Hboth as ->];
      rewrite length_app; cbn [length]; lia. }
  split; intros [= Heq]; rewrite <- Heq in Hlen;
    rewrite ?length_app in Hlen; cbn [length] in Hlen; lia.
Qed.

Lemma overlapping_appends_lose_events_witness :
  let s := Loaded (JArr [event "t0" "motion_detected"]) in
  let calls := [begin "t1" "manual_record"; begin "t2" "motion_detected"] in
  let unlucky := run_calls both_load_first calls s in
  let torn := run_calls load_during_write calls s in
  (map next unlucky.1 = [Returned; Returned] /\
   persisted unlucky.2
   = Some ([event "t0" "motion_detected"] ++ [event "t2" "motion_detected"])) /\
  (map next torn.1 = [Returned; Returned] /\
   persisted torn.2 = Some [event "t2" "motion_detected"]) /\
  (forall both : list json,
     both ∈ [[event "t0" "motion_detected"] ++
             [event "t1" "manual_record"; event "t2" "motion_detected"];
             [event "t0" "motion_detected"] ++
             [event "t2" "motion_detected"; event "t1" "manual_record"]] ->
     persisted unlucky.2 <> Some both /\ persisted torn.2 <> Some both).
Proof.
  apply (overlapping_appends_lose_events
           (Loaded (JArr [event "t0" "motion_detected"]))
           [event "t0" "motion_detected"]
           "t1" "manual_record" "t2" "motion_detected").
  reflexivity.
Defined.

End EventLogFacts.

(** ** Motion detector *)

Section MotionDetector.
Context `{cv : Cv}.

Lemma exceeds_spec (t : Z) (c : Contour) :
  Camera.exceeds t c = true <-> (inject_Z t < contourArea c)%Q.
Proof.
  unfold Camera.exceeds. rewrite negb_true_iff.
  destruct (Qle_bool (contourArea c) (inject_Z t)) eqn:E.
  - apply Qle_bool_iff in E. split; [discriminate|].
    intros Hlt. exfalso. exact (Qlt_not_le _ _ Hlt E).
  - split; [intros _|reflexivity].
    apply Qnot_le_lt. intros Hle. apply Qle_bool_iff in Hle. congruence.
Qed.

(** The loop with [break] finds a contour above the threshold exactly when
    there is one. *)
Lemma significant_spec (t : Z) (contours : list Contour) :
  Camera.significant t contours = true <->
  exists c, c ∈ contours /\ (inject_Z t < contourArea c)%Q.
Proof.
  induction contours as [|c rest IH]; simpl.
  - split; [discriminate|]. intros (c & Hin & _). inversion Hin.
  - destruct (Camera.exceeds t c) eqn:E.
    + split; [intros _|reflexivity].
      exists c. split; [left|]. apply exceeds_spec, E.
    + rewrite IH. split.
      * intros (c' & Hin & Hlt). exists c'. split; [right; exact Hin|exact Hlt].
      * intros (c' & Hin & Hlt). inversion Hin as [|? ? ? Hin']; subst.
        -- apply exceeds_spec in Hlt. congruence.
        -- exists c'. auto.
Qed.

Lemma any_exceeds_spec (contours : list Contour) :
  existsb App.exceeds contours = true <->
  exists c, c ∈ contours /\ (inject_Z 5000 < contourArea c)%Q.
Proof.
  rewrite existsb_exists. split.
  - intros (c & Hin & Hc). exists c. split; [apply list_elem_of_In, Hin|].
    apply (exceeds_spec 5000 c), Hc.
  - intros (c & Hin & Hc). exists c. split; [apply list_elem_of_In, Hin|].
    apply (exceeds_spec 5000 c), Hc.
Qed.

Lemma detect_motion_seeded frame self last :
  Camera.last_frame self = Some last ->
  Camera.detect_motion frame self =
    (Camera.significant (Camera.motion_threshold self)
       (findContours (mask (Ones 5 5) last frame)),
     Camera.set_last_frame (Some (GaussianBlur (cvtColor frame) (21, 21)%Z 0)) self).
Proof. intros H. unfold Camera.detect_motion. rewrite H. reflexivity. Qed.

(** C3.  With no reference stored, the detector of [camera.py] and the one
    of [gui_with_preview.py] both report no motion and change nothing but
    the reference, which becomes the grayscale of the frame. *)
Theorem first_frame_reports_no_motion (frame : Frame)
    (self : Camera.SecurityCamera) (cam_id : string)
    (gui : Gui.SecurityCameraGUI) :
  Camera.last_frame self = None ->
  Gui.last_frames gui !! cam_id = None \/ Gui.last_frames gui !! cam_id = Some None ->
  Camera.detect_motion frame self =
    (false, Camera.set_last_frame (Some (cvtColor frame)) self) /\
  Gui.detect_motion cam_id frame gui =
    (false, Gui.set_last_frames
              (<[cam_id := Some (cvtColor frame)]> (Gui.last_frames gui)) gui).
Proof.
  intros Hcam Hgui. split.
  - unfold Camera.detect_motion. rewrite Hcam. reflexivity.
  - unfold Gui.detect_motion. destruct Hgui as [-> | ->]; reflexivity.
Qed.

(** A freshly constructed camera has no reference. *)
Lemma init_no_reference isOpened index log files :
  Camera.last_frame (Camera.__init__ isOpened index log files) = None.
Proof.
  unfold Camera.__init__, Camera._init_camera. simpl.
  repeat case_match; reflexivity.
Qed.

(** C4.  The evaluation that seeds the reference stores the grayscale frame
    as it is: [cv2.GaussianBlur] is applied only on the path taken when a
    reference already exists. *)
Theorem seeded_reference_is_not_blurred (frame : Frame)
    (self : Camera.SecurityCamera) (cam_id : string)
    (gui : Gui.SecurityCameraGUI) :
  Camera.last_frame
    (Camera.detect_motion frame (Camera.set_last_frame None self)).2
  = Some (cvtColor frame) /\
  Gui.last_frames
    (Gui.detect_motion cam_id frame
       (Gui.set_last_frames (<[cam_id := None]> (Gui.last_frames gui)) gui)).2
    !! cam_id
  = Some (Some (cvtColor frame)).
Proof.
  split; [reflexivity|].
  unfold Gui.detect_motion. simpl. rewrite lookup_insert_eq. simpl.
  apply lookup_insert_eq.
Qed.

(** On every later evaluation the reference becomes the blurred grayscale
    of the frame just evaluated. *)
Lemma later_reference_is_blurred frame self last :
  Camera.last_frame self = Some last ->
  Camera.last_frame (Camera.detect_motion frame self).2
  = Some (GaussianBlur (cvtColor frame) (21, 21)%Z 0).
Proof. intros H. rewrite (detect_motion_seeded _ _ _ H). reflexivity. Qed.

(** The capture loop of [app.py] blurs before it seeds. *)
Lemma app_seed_is_blurred e cam_key out g frame :
  App.grabbed e = Some frame ->
  App.prev_frame g = None ->
  App.prev_frame (App.detect_motion_and_record e cam_key out g).2
  = Some (GaussianBlur (cvtColor frame) (21, 21)%Z 0).
Proof.
  intros He Hg. unfold App.detect_motion_and_record. rewrite He, Hg. reflexivity.
Qed.

(** Starting, writing to and stopping a clip leave the motion flags alone,
    also when a statement raises. *)
Lemma record_frame_motion_detected e cam_key frame out g :
  App.motion_detected (App.record_frame e cam_key frame out g).2
  = App.motion_detected g.
Proof.
  unfold App.record_frame, App.bind, App.getitem, App.set_recording,
    App.new_writer, App.out_write, App.out_release, App.set_disk, App.bind,
    App.ret, App.raise.
  repeat (case_match; simplify_eq/=; try reflexivity).
Qed.

Lemma app_motion_flag e cam_key out g frame prev :
  App.grabbed e = Some frame ->
  App.prev_frame g = Some prev ->
  App.motion_detected (App.detect_motion_and_record e cam_key out g).2 !! cam_key
  = Some (existsb App.exceeds (findContours (mask DefaultKernel prev frame))).
Proof.
  intros He Hg. unfold App.detect_motion_and_record. rewrite He, Hg.
  unfold App.bind at 1 2 3. simpl.
  match goal with
  | |- context [App.record_frame ?e ?k ?f ?o ?g0] =>
      pose proof (record_frame_motion_detected e k f o g0) as Hkeep;
      destruct (App.record_frame e k f o g0) as [[x|o'] g1]
  end; simpl in *; rewrite Hkeep; apply lookup_insert_eq.
Qed.

(** C5.  Once a reference is stored, [SecurityCamera.detect_motion] returns
    true exactly when some contour of the thresholded, dilated difference
    mask has an area above [motion_threshold]; the capture loop of [app.py]
    sets the camera's motion flag to true exactly when some contour has an
    area above 5000. *)
Theorem motion_iff_large_region (frame : Frame) (self : Camera.SecurityCamera)
    (last : Gray) (e : App.env) (cam_key : string)
    (out : option App.VideoWriter) (g : App.globals) (prev : Gray) :
  Camera.last_frame self = Some last ->
  App.grabbed e = Some frame ->
  App.prev_frame g = Some prev ->
  ((Camera.detect_motion frame self).1 = true <->
   exists c, c ∈ findContours (mask (Ones 5 5) last frame) /\
             (inject_Z (Camera.motion_threshold self) < contourArea c)%Q) /\
  (App.motion_detected (App.detect_motion_and_record e cam_key out g).2 !! cam_key
     = Some true <->
   exists c, c ∈ findContours (mask DefaultKernel prev frame) /\
             (inject_Z 5000 < contourArea c)%Q).
Proof.
  intros Hlast He Hprev. split.
  - rewrite (detect_motion_seeded _ _ _ Hlast). simpl. apply significant_spec.
  - rewrite (app_motion_flag _ _ _ _ _ _ He Hprev).
    rewrite <- any_exceeds_spec. split; [intros [= ->]; reflexivity|intros ->; reflexivity].
Qed.

End MotionDetector.

(** On a row with one bright pixel the stored reference and the comparison
    frame of the same image differ. *)
Example seeded_reference_differs :
  Camera.last_frame
    (@Camera.detect_motion OneRow.ops OneRow.speck OneRow.with_camera).2
  = Some [255; 0; 0; 0]%Z /\
  @GaussianBlur OneRow.ops (@cvtColor OneRow.ops OneRow.speck) (21, 21)%Z 0
  = [63; 63; 63; 63]%Z.
Proof. vm_compute. split; reflexivity. Qed.

Lemma first_frame_reports_no_motion_witness :
  @Camera.detect_motion OneRow.ops OneRow.busy_scene OneRow.no_camera =
    (false, Camera.set_last_frame
              (Some (@cvtColor OneRow.ops OneRow.busy_scene)) OneRow.no_camera) /\
  @Gui.detect_motion OneRow.ops "video2" OneRow.busy_scene
    (@Gui.Build_SecurityCameraGUI OneRow.ops {[ "video2" := None ]} 30) =
    (false, Gui.set_last_frames
              (<["video2" := Some (@cvtColor OneRow.ops OneRow.busy_scene)]>
                 {[ "video2" := None ]})
              (@Gui.Build_SecurityCameraGUI OneRow.ops {[ "video2" := None ]} 30)).
Proof.
  apply (@first_frame_reports_no_motion OneRow.ops).
  - reflexivity.
  - right. reflexivity.
Defined.

(** ** Placeholder source *)

Section Placeholder.
Context `{cv : Cv}.

Lemma try_indices_none isOpened candidates :
  Camera.try_indices isOpened candidates = None <->
  forall i, i ∈ candidates -> isOpened i = false.
Proof.
  induction candidates as [|c rest IH]; simpl.
  - split; [|reflexivity]. intros _ i Hi. inversion Hi.
  - destruct (isOpened c) eqn:E.
    + split; [discriminate|]. intros H.
      specialize (H c (list_elem_of_here _ _)). congruence.
    + rewrite IH. split.
      * intros H i Hi. inversion Hi; subst; auto.
      * intros H i Hi. apply H. right. exact Hi.
Qed.

(** [_init_camera] leaves [cap] at [None] exactly when neither the
    configured index nor any of 1, 2, 3 opens. *)
Lemma init_camera_no_device isOpened self :
  Camera.cap (Camera._init_camera isOpened self) = None <->
  isOpened (Camera.camera_index self) = false /\
  forall i, i ∈ [1; 2; 3]%Z -> isOpened i = false.
Proof.
  unfold Camera._init_camera.
  destruct (isOpened (Camera.camera_index self)) eqn:E0.
  - split; [discriminate|]. intros [? _]. discriminate.
  - destruct (Camera.try_indices isOpened [1; 2; 3]%Z) eqn:E.
    + split; [discriminate|]. intros [_ H].
      apply try_indices_none in H. congruence.
    + split; [|reflexivity]. intros _. split; [reflexivity|].
      apply try_indices_none, E.
Qed.

(** When another index opens, the camera streams from that device. *)
Lemma init_camera_alternative isOpened self i :
  isOpened (Camera.camera_index self) = false ->
  Camera.try_indices isOpened [1; 2; 3]%Z = Some i ->
  Camera.cap (Camera._init_camera isOpened self) = Some i /\
  Camera.camera_index (Camera._init_camera isOpened self) = i.
Proof.
  intros H0 Hi. unfold Camera._init_camera. rewrite H0, Hi. split; reflexivity.
Qed.

Lemma generate_frames_no_device e self :
  Camera.cap self = None ->
  Camera.generate_frames e self
  = (Camera.encode Camera._create_dummy_frame, self, []).
Proof. intros H. unfold Camera.generate_frames. rewrite H. reflexivity. Qed.

Lemma stream_no_device obs : forall self buffer,
  Camera.cap self = None ->
  imencode Camera._create_dummy_frame = Some buffer ->
  Camera.stream obs self = (replicate (length obs) (part_of buffer), true).
Proof.
  induction obs as [|e rest IH]; intros self buffer Hcap Henc; simpl.
  - reflexivity.
  - rewrite (generate_frames_no_device e self Hcap).
    unfold Camera.encode. rewrite Henc.
    fold (part_of buffer). rewrite (IH self buffer Hcap Henc). reflexivity.
Qed.

(** C6.  When the configured index and the alternatives 1, 2, 3 all fail
    to open, construction still returns an object, with no capture; from
    then on the stream neither ends nor raises, and every pass yields the
    same part, the JPEG of the "No Camera Available" image, for as long as
    it is consumed. *)
Theorem no_device_streams_placeholder (isOpened : Z -> bool) (index : Z)
    (log : EventLog.store) (files : gmap string (list Frame))
    (buffer : Jpeg) (obs : list Camera.env) :
  isOpened index = false ->
  (forall i, i ∈ [1; 2; 3]%Z -> isOpened i = false) ->
  imencode Camera._create_dummy_frame = Some buffer ->
  let self := Camera.__init__ isOpened index log files in
  Camera.cap self = None /\
  Camera.stream obs self = (replicate (length obs) (part_of buffer), true).
Proof.
  intros H0 Halt Henc self.
  assert (Hcap : Camera.cap self = None).
  { apply init_camera_no_device. simpl. auto. }
  split; [exact Hcap|]. apply stream_no_device; assumption.
Qed.

End Placeholder.

(** ** Recording control in [camera.py] *)

Section RecordingControl.
Context `{cv : Cv}.
Import Camera.

Lemma Qltb_spec (a b : Q) : Qltb a b = true <-> (a < b)%Q.
Proof.
  unfold Qltb. rewrite negb_true_iff.
  destruct (Qle_bool b a) eqn:E.
  - apply Qle_bool_iff in E. split; [discriminate|].
    intros Hlt. exfalso. exact (Qlt_not_le _ _ Hlt E).
  - split; [intros _|reflexivity].
    apply Qnot_le_lt. intros Hle. apply Qle_bool_iff in Hle. congruence.
Qed.

Lemma run_cons (a : action) (rest : list action) (s : system) :
  run (a :: rest) s = run rest (step a s).
Proof. reflexivity. Qed.

(** *** Guards *)

Lemma manual_record_while_recording e self :
  is_recording self = true ->
  manual_record e self = (Some "Already recording", self, []).
Proof. intros H. unfold manual_record. rewrite H. reflexivity. Qed.

Lemma guard_while_recording e w self :
  at_pc w = AtGuard ->
  is_recording self = true ->
  _record_clip e w self = (at_ Finished w, self).
Proof. intros Hpc H. unfold _record_clip. rewrite Hpc, H. reflexivity. Qed.

(** *** No capture *)

Lemma step_idle_without_device files a s :
  idle_without_device files s -> idle_without_device files (step a s).
Proof.
  intros (Hcap & Hrec & Hfiles & Hlog & Hthreads).
  destruct a as [e|e|i e]; simpl.
  - unfold manual_record. rewrite Hrec.
    destruct (log_event_appendable (iso_now e) "manual_record" _ Hlog) as [s' Hs'].
    rewrite Hs'. simpl. repeat split; try assumption.
    + eapply log_event_result_appendable, Hs'.
    + apply Forall_app. split; [assumption|]. repeat constructor.
  - rewrite (generate_frames_no_device e _ Hcap). simpl.
    rewrite app_nil_r. repeat split; assumption.
  - destruct (threads s !! i) as [w|] eqn:Hw; [|repeat split; assumption].
    pose proof (proj1 (Forall_lookup _ _) Hthreads i w Hw) as Hpc.
    unfold before_recording in Hpc. unfold _record_clip.
    destruct (at_pc w) eqn:Epc; try contradiction.
    + rewrite Hrec. simpl. repeat split; try assumption.
      apply Forall_insert; [assumption|]. exact I.
    + rewrite Hcap.
      destruct (log_event_appendable (iso_now e)
                  (trigger_type w +:+ "_no_camera") _ Hlog) as [s' Hs'].
      rewrite Hs'. simpl. repeat split; try assumption.
      * eapply log_event_result_appendable, Hs'.
      * apply Forall_insert; [assumption|]. exact I.
    + simpl. repeat split; try assumption.
      apply Forall_insert; [assumption|].
      unfold before_recording. rewrite Epc. exact I.
Qed.

Lemma run_idle_without_device files schedule : forall s,
  idle_without_device files s -> idle_without_device files (run schedule s).
Proof.
  induction schedule as [|a rest IH]; intros s Hs; [exact Hs|].
  rewrite run_cons. apply IH, step_idle_without_device, Hs.
Qed.

Lemma idle_no_writer files s :
  idle_without_device files s -> open_writers s = 0.
Proof.
  intros (_ & _ & _ & _ & Hthreads). unfold open_writers.
  induction Hthreads as [|w ws Hw _ IH]; [reflexivity|].
  rewrite filter_cons_False; [exact IH|].
  unfold before_recording in Hw. unfold writing.
  destruct (at_pc w); try contradiction; discriminate.
Qed.

(** With no capture, [_record_clip] run from its first statement logs the
    no-camera event of its trigger type and returns. *)
Lemma record_clip_without_device files s ty e1 e2 old :
  idle_without_device files s ->
  EventLog.load_events (events (camera s)) = EventLog.JArr old ->
  let first := _record_clip e1 {| trigger_type := ty; at_pc := AtGuard |} (camera s) in
  let second := _record_clip e2 first.1 first.2 in
  at_pc second.1 = Finished /\
  events second.2 =
    EventLog.Loaded (EventLog.JArr (old ++ [EventLog.event (iso_now e2) (ty +:+ "_no_camera")])) /\
  recordings second.2 = files /\
  is_recording second.2 = false.
Proof.
  intros (Hcap & Hrec & Hfiles & Hlog & _) Hold. unfold _record_clip. simpl.
  rewrite Hrec. simpl. rewrite Hcap.
  rewrite (log_event_loaded _ _ _ old Hlog Hold). simpl. auto.
Qed.

Lemma step_manual e s st :
  is_recording (camera s) = false ->
  EventLog._log_event (iso_now e) "manual_record" (events (camera s)) = Some st ->
  step (CallManualRecord e) s =
    {| camera := set_events st (camera s);
       threads := threads s ++ [{| trigger_type := "manual"; at_pc := AtGuard |}] |}.
Proof.
  intros Hrec Hlog. unfold step, manual_record. rewrite Hrec, Hlog. reflexivity.
Qed.

Lemma step_schedule i e s w w' self' :
  threads s !! i = Some w ->
  _record_clip e w (camera s) = (w', self') ->
  step (Schedule i e) s = {| camera := self'; threads := <[i := w']> (threads s) |}.
Proof. intros Hw Hrun. unfold step. rewrite Hw, Hrun. reflexivity. Qed.

(** Runs the innermost scheduled statement of the goal. *)
Ltac run_thread :=
  match goal with
  | |- context [step (Schedule ?i ?e) (Build_system ?c ?t)] =>
      erewrite (step_schedule i e (Build_system c t))
  end.

Lemma manual_trigger_without_device files s e0 e1 e2 old :
  idle_without_device files s ->
  EventLog.load_events (events (camera s)) = EventLog.JArr old ->
  events (camera (run (manual_trigger (length (threads s)) e0 e1 e2) s)) =
    EventLog.Loaded (EventLog.JArr
      (old ++ [EventLog.event (iso_now e0) "manual_record";
               EventLog.event (iso_now e2) "manual_no_camera"])).
Proof.
  destruct s as [self ws]. intros (Hcap & Hrec & _ & Hlog & _) Hold.
  cbn [camera threads] in *.
  unfold manual_trigger. rewrite !run_cons.
  erewrite step_manual;
    [|exact Hrec|apply (log_event_loaded _ _ _ old Hlog Hold)].
  run_thread;
    [|simpl; rewrite lookup_app_r, Nat.sub_diag by lia; reflexivity
     |unfold _record_clip; simpl; rewrite Hrec; reflexivity].
  run_thread;
    [|simpl; apply list_lookup_insert_eq; rewrite length_app; simpl; lia
     |unfold _record_clip; simpl; rewrite Hcap; reflexivity].
  simpl. rewrite <- app_assoc. reflexivity.
Qed.

Lemma init_idle_without_device isOpened index log files :
  isOpened index = false ->
  (forall i, i ∈ [1; 2; 3]%Z -> isOpened i = false) ->
  EventLog.appendable log = true ->
  idle_without_device files (started (__init__ isOpened index log files)).
Proof.
  intros H0 Halt Hlog.
  assert (Htry : try_indices isOpened [1; 2; 3]%Z = None)
    by (apply try_indices_none, Halt).
  unfold idle_without_device, started, __init__, _init_camera.
  cbn [camera_index]. rewrite H0, Htry. simpl. repeat split; auto.
Qed.

(** C7.  On a camera constructed when no device opens, and after any
    activity since: [_record_clip], for either trigger type, appends the
    no-camera event of that type to the log and creates no file; a call of
    [manual_record] followed by its thread appends [manual_record] and then
    [manual_no_camera], the files stay those found at start-up and no
    writer is open. *)
Theorem no_device_trigger_logs_and_writes_nothing (isOpened : Z -> bool)
    (index : Z) (log : EventLog.store) (files : gmap string (list Frame))
    (schedule : list action) (ty : string) (e0 e1 e2 : env) :
  isOpened index = false ->
  (forall i, i ∈ [1; 2; 3]%Z -> isOpened i = false) ->
  EventLog.appendable log = true ->
  let s := run schedule (started (__init__ isOpened index log files)) in
  let first := _record_clip e1 {| trigger_type := ty; at_pc := AtGuard |} (camera s) in
  let second := _record_clip e2 first.1 first.2 in
  let s' := run (manual_trigger (length (threads s)) e0 e1 e2) s in
  exists old,
    EventLog.load_events (events (camera s)) = EventLog.JArr old /\
    (at_pc second.1 = Finished /\
     events second.2 =
       EventLog.Loaded (EventLog.JArr
         (old ++ [EventLog.event (iso_now e2) (ty +:+ "_no_camera")])) /\
     recordings second.2 = files) /\
    (events (camera s') =
       EventLog.Loaded (EventLog.JArr
         (old ++ [EventLog.event (iso_now e0) "manual_record";
                  EventLog.event (iso_now e2) "manual_no_camera"])) /\
     recordings (camera s') = files /\
     open_writers s' = 0).
Proof.
  intros H0 Halt Hlog s first second s'.
  pose proof (init_idle_without_device isOpened index log files H0 Halt Hlog)
    as Hinit.
  pose proof (run_idle_without_device files schedule _ Hinit) as Hs.
  fold s in Hs.
  assert (Hold : exists old,
             EventLog.load_events (events (camera s)) = EventLog.JArr old).
  { destruct Hs as (_ & _ & _ & Happ & _).
    destruct (events (camera s)) as [| |[]|]; simpl in *; try discriminate; eauto. }
  destruct Hold as [old Hold]. exists old. split; [exact Hold|]. split.
  - destruct (record_clip_without_device files s ty e1 e2 old Hs Hold)
      as (Hpc & Hev & Hrec & _).
    auto.
  - pose proof (run_idle_without_device files
                  (manual_trigger (length (threads s)) e0 e1 e2) _ Hs) as Hs'.
    fold s' in Hs'. split; [|split].
    + apply (manual_trigger_without_device files); assumption.
    + destruct Hs' as (_ & _ & Hfiles & _). exact Hfiles.
    + eapply idle_no_writer, Hs'.
Qed.

(** *** Triggers racing for the flag *)

(** C1.  The flag is tested (line 148) and set (line 156) by separate
    statements and no lock is held in between: when the threads of two
    triggers both test it before either sets it, both create a
    [cv2.VideoWriter], and two writers are open at once. *)
Theorem unlocked_flag_admits_two_writers (self : SecurityCamera) (d : Z)
    (e : env) :
  cap self = Some d ->
  is_recording self = false ->
  EventLog.appendable (events self) = true ->
  let s := run (two_triggers e) (started self) in
  open_writers s = 2 /\
  exists start out, threads s = [ {| trigger_type := "manual"; at_pc := InLoop start out |};
                                  {| trigger_type := "manual"; at_pc := InLoop start out |} ].
Proof.
  intros Hcap Hrec Hlog.
  destruct (log_event_appendable (iso_now e) "manual_record" _ Hlog) as [st1 H1].
  pose proof (log_event_result_appendable _ _ _ _ H1) as Hlog1.
  destruct (log_event_appendable (iso_now e) "manual_record" _ Hlog1) as [st2 H2].
  unfold two_triggers, started. cbv zeta. rewrite !run_cons.
  rewrite (step_manual e (Build_system self []) st1 Hrec H1).
  cbn [camera threads app].
  rewrite (step_manual e (Build_system (set_events st1 self) _) st2 Hrec H2).
  cbn [camera threads app].
  do 8 (run_thread;
        [|reflexivity
         |unfold _record_clip; simpl; rewrite ?Hrec, ?Hcap; reflexivity];
        cbn [camera threads]).
  split; [reflexivity|]. eexists _, _. reflexivity.
Qed.

(** *** How long a session lasts *)

Lemma step_thread_kept a s i w :
  threads s !! i = Some w ->
  (forall e, a <> Schedule i e) ->
  threads (step a s) !! i = Some w.
Proof.
  intros Hw Hother. destruct a as [e|e|j e]; simpl.
  - destruct (manual_record e (camera s)) as [[reply self'] new]. simpl.
    apply lookup_app_l_Some, Hw.
  - destruct (generate_frames e (camera s)) as [[reply self'] new]. simpl.
    apply lookup_app_l_Some, Hw.
  - destruct (threads s !! j) as [wj|] eqn:Hj; [|exact Hw].
    destruct (_record_clip e wj (camera s)) as [w' self']. simpl.
    rewrite list_lookup_insert_ne; [exact Hw|].
    intros ->. exact (Hother e eq_refl).
Qed.

(** The loop test of a session looks at the clock and at nothing else. *)
Lemma step_loop_test i e s w start out :
  threads s !! i = Some w ->
  at_pc w = InLoop start out ->
  threads (step (Schedule i e) s) !! i
  = Some (if Qltb (clock e - start) duration then w else at_ (AtRelease out) w).
Proof.
  intros Hw Hpc. pose proof (lookup_lt_Some _ _ _ Hw) as Hlt.
  unfold step. rewrite Hw. unfold _record_clip. rewrite Hpc.
  destruct (Qltb (clock e - start) duration).
  - destruct (cap (camera s)), (opened e), (grabbed e); simpl;
      apply list_lookup_insert_eq, Hlt.
  - simpl. apply list_lookup_insert_eq, Hlt.
Qed.

Lemma session_stays_open schedule : forall s i w start out,
  threads s !! i = Some w ->
  at_pc w = InLoop start out ->
  (forall e, Schedule i e ∈ schedule -> (clock e - start < duration)%Q) ->
  threads (run schedule s) !! i = Some w.
Proof.
  induction schedule as [|a rest IH]; intros s i w start out Hw Hpc Hearly.
  - exact Hw.
  - rewrite run_cons. apply (IH _ _ _ start out); [|exact Hpc|].
    + destruct a as [e|e|j e].
      * apply step_thread_kept; [exact Hw|discriminate].
      * apply step_thread_kept; [exact Hw|discriminate].
      * destruct (decide (j = i)) as [->|Hne].
        -- rewrite (step_loop_test _ _ _ _ _ _ Hw Hpc).
           assert (Ht : Qltb (clock e - start) duration = true)
             by (apply Qltb_spec, Hearly; left).
           rewrite Ht. reflexivity.
        -- apply step_thread_kept; [exact Hw|]. intros e' [= ? _]. congruence.
    + intros e He. apply Hearly. right. exact He.
Qed.

(** *** The same threads with the guard and the flag under a lock *)

Lemma sessions_insert (ws : list worker) : forall (i : nat) (w w' : worker),
  ws !! i = Some w ->
  length (filter (fun w => in_session w = true) (<[i := w']> ws))
    + (if in_session w then 1 else 0)
  = length (filter (fun w => in_session w = true) ws)
    + (if in_session w' then 1 else 0).
Proof.
  induction ws as [|x rest IH]; intros i w w' Hw; [inversion Hw|].
  destruct i as [|i]; simpl in Hw.
  - injection Hw as ->. simpl. rewrite !filter_cons.
    destruct (in_session w), (in_session w'); repeat case_decide;
      simpl; try congruence; lia.
  - simpl. rewrite !filter_cons. specialize (IH i w w' Hw).
    case_decide; simpl; lia.
Qed.

Lemma writers_le_sessions s : open_writers s <= sessions s.
Proof.
  unfold open_writers, sessions.
  induction (threads s) as [|w ws IH]; [reflexivity|].
  rewrite !filter_cons.
  assert (Himp : writing w = true -> in_session w = true)
    by (unfold writing, in_session; destruct (at_pc w); congruence).
  repeat case_decide; simpl; try lia. exfalso. auto.
Qed.

Lemma generate_frames_keeps_flag e self :
  is_recording (generate_frames e self).1.2 = is_recording self /\
  Forall (fun w => at_pc w = AtGuard) (generate_frames e self).2.
Proof.
  unfold generate_frames, detect_motion.
  repeat (case_match; simplify_eq/=; try (split; [reflexivity|]));
    repeat constructor.
Qed.

Lemma step_locked_one_holder a s : one_holder s -> one_holder (step_locked a s).
Proof.
  intros [Hcount Hpcs]. destruct s as [c ws].
  unfold one_holder, sessions in *. cbn [camera threads] in *.
  destruct a as [e|e|i e]; cbn [step_locked step camera threads].
  - unfold manual_record.
    destruct (is_recording c) eqn:Hrec; [|destruct (EventLog._log_event _ _ _)];
      cbn [camera threads]; rewrite ?app_nil_r.
    + rewrite Hrec. split; assumption.
    + split.
      * rewrite filter_app, length_app. cbn. rewrite Hrec.
        case_decide; [discriminate|]. simpl. lia.
      * apply Forall_app. split; [assumption|]. repeat constructor; discriminate.
    + rewrite Hrec. split; assumption.
  - destruct (generate_frames_keeps_flag e c) as [Hflag Hnew].
    destruct (generate_frames e c) as [[reply c'] new]. cbn in *. split.
    + rewrite filter_app, length_app, Hflag.
      replace (length (filter _ new)) with 0; [lia|].
      clear -Hnew. induction Hnew as [|w ws Hw _ IH]; [reflexivity|].
      rewrite filter_cons.
      case_decide as Hd; [|exact IH].
      unfold in_session in Hd. rewrite Hw in Hd. discriminate.
    + apply Forall_app. split; [assumption|].
      eapply Forall_impl; [exact Hnew|]. intros w ->. split; discriminate.
  - destruct (ws !! i) as [w|] eqn:Hw; [|split; assumption].
    pose proof (proj1 (Forall_lookup _ _) Hpcs i w Hw) as [Hno1 Hno2].
    assert (Hupd : forall w' c',
      (if in_session w' then 1 else 0) + (if is_recording c then 1 else 0)
        = (if in_session w then 1 else 0) + (if is_recording c' then 1 else 0) ->
      at_pc w' <> AtCapCheck -> at_pc w' <> AtSetFlag ->
      length (filter (fun w => in_session w = true) (<[i := w']> ws))
        = (if is_recording c' then 1 else 0) /\
      Forall (fun w => at_pc w <> AtCapCheck /\ at_pc w <> AtSetFlag)
        (<[i := w']> ws)).
    { intros w' c' Hbal H1 H2. split.
      - pose proof (sessions_insert ws i w w' Hw). lia.
      - apply Forall_insert; [assumption|]. split; assumption. }
    assert (Hin : in_session w = true -> is_recording c = true).
    { intros Hs. destruct (is_recording c); [reflexivity|].
      exfalso. clear -Hw Hs Hcount.
      revert i Hw Hcount. induction ws as [|x rest IH]; intros i Hw Hcount;
        [inversion Hw|].
      rewrite filter_cons in Hcount. destruct i as [|i]; simpl in Hw.
      - injection Hw as ->. case_decide; [discriminate|contradiction].
      - case_decide; [discriminate|]. eapply IH; eassumption. }
    unfold enter, _record_clip.
    destruct (at_pc w) eqn:Hpc; try contradiction; cbn [at_pc at_ trigger_type].
    + (* guard, capture check and assignment in one go *)
      destruct (is_recording c) eqn:Hrec; cbn [at_pc at_ trigger_type].
      * apply Hupd; unfold in_session; cbn; rewrite ?Hpc, ?Hrec;
          first [reflexivity|discriminate].
      * destruct (cap c) eqn:Hcap; cbn [at_pc at_ trigger_type].
        -- apply Hupd; unfold in_session; cbn; rewrite ?Hpc, ?Hrec;
             first [reflexivity|discriminate].
        -- destruct (EventLog._log_event _ _ _); cbn [at_pc at_ trigger_type];
             apply Hupd; unfold in_session; cbn; rewrite ?Hpc, ?Hrec;
             first [reflexivity|discriminate].
    + apply Hupd; unfold in_session; cbn; rewrite ?Hpc;
        first [reflexivity|discriminate].
    + destruct (Qltb _ _).
      * destruct (cap c), (opened e), (grabbed e);
          apply Hupd; unfold in_session; cbn; rewrite ?Hpc;
          first [reflexivity|congruence].
      * apply Hupd; unfold in_session; cbn; rewrite ?Hpc;
          first [reflexivity|discriminate].
    + apply Hupd; unfold in_session; cbn; rewrite ?Hpc;
        first [reflexivity|discriminate].
    + assert (Hrec : is_recording c = true)
        by (apply Hin; unfold in_session; rewrite Hpc; reflexivity).
      apply Hupd; unfold in_session; cbn; rewrite ?Hpc, ?Hrec;
        first [reflexivity|discriminate].
    + apply Hupd; unfold in_session; cbn; rewrite ?Hpc;
        first [reflexivity|congruence].
    + apply Hupd; unfold in_session; cbn; rewrite ?Hpc;
        first [reflexivity|congruence].
Qed.

(** With the guard and the flag under a lock, no schedule of triggers and
    thread steps opens a second writer. *)
Lemma locked_flag_admits_one_writer schedule self :
  is_recording self = false ->
  open_writers (run_locked schedule (started self)) <= 1.
Proof.
  intros Hrec.
  assert (Hinv : one_holder (run_locked schedule (started self))).
  { assert (H0 : one_holder (started self)).
    { split; [cbn; rewrite Hrec; reflexivity|constructor]. }
    revert H0. generalize (started self). unfold run_locked.
    induction schedule as [|a rest IH]; intros s Hs; [exact Hs|].
    simpl. apply IH, step_locked_one_holder, Hs. }
  pose proof (writers_le_sessions (run_locked schedule (started self))) as Hle.
  destruct Hinv as [Hcount _]. rewrite Hcount in Hle.
  revert Hle. case_match; lia.
Qed.

End RecordingControl.

(** ** Capture loop and [/record] handler of [app.py] *)

Section AppFacts.
Context `{cv : Cv}.
Import App.

(** Unfolds the statements of the loop body down to the globals. *)
Ltac run_body :=
  unfold detect_motion_and_record, record_frame, manual_record, bind, getitem,
    set_prev_frame, set_motion_detected, set_recording, new_writer, out_write,
    out_release, set_disk, ret, raise;
  cbn [prev_frame motion_detected recording disk fst snd].

Lemma manual_record_unknown cam g :
  cam ∉ ["cam1"; "cam2"] ->
  manual_record cam g = (inl (HTTPException 400 "Invalid camera key"), g).
Proof.
  intros Hcam. unfold manual_record.
  rewrite bool_decide_eq_false_2 by exact Hcam. reflexivity.
Qed.

Lemma manual_record_known cam g :
  cam ∈ ["cam1"; "cam2"] ->
  manual_record cam g =
    (inr ("Manual recording started for " +:+ cam),
     {| prev_frame := prev_frame g; motion_detected := motion_detected g;
        recording := <[cam := true]> (recording g); disk := disk g |}).
Proof.
  intros Hcam. unfold manual_record.
  rewrite bool_decide_eq_true_2 by exact Hcam. reflexivity.
Qed.

(** The handler on its own: a key other than [cam1] and [cam2] is answered
    with the HTTP 400 error [Invalid camera key] and the globals are left as
    they were; for [cam1] and [cam2] the handler sets the recording flag of
    that camera and touches nothing else. *)
Theorem manual_record_checks_key (cam : string) (g : globals) :
  (cam ∉ ["cam1"; "cam2"] ->
   manual_record cam g = (inl (HTTPException 400 "Invalid camera key"), g)) /\
  (cam ∈ ["cam1"; "cam2"] ->
   manual_record cam g =
     (inr ("Manual recording started for " +:+ cam),
      {| prev_frame := prev_frame g; motion_detected := motion_detected g;
         recording := <[cam := true]> (recording g); disk := disk g |})).
Proof.
  split; [apply manual_record_unknown|apply manual_record_known].
Qed.

(** C8.  A key other than [cam1] and [cam2] is answered with the HTTP 400
    error [Invalid camera key] and no global is changed.  For [cam1] and
    [cam2], with the capture thread idle (its [out] is [None] or a writer
    already released), the request is answered with the started message and
    sets the flag, but no session starts: the handler creates no file, and
    the next pass of the thread creates none and writes no frame either; it
    raises [AttributeError] when [out] is [None] and drops the frame when
    [out] is a released writer. *)
Theorem manual_record_starts_no_session (cam : string) (g : globals)
    (e : env) (frame : Frame) (prev : Gray) (out : option VideoWriter) :
  (cam ∉ ["cam1"; "cam2"] ->
   manual_record cam g = (inl (HTTPException 400 "Invalid camera key"), g)) /\
  (cam ∈ ["cam1"; "cam2"] ->
   prev_frame g = Some prev ->
   grabbed e = Some frame ->
   match out with Some w => released w = true | None => True end ->
   let request := manual_record cam g in
   let after := detect_motion_and_record e cam out request.2 in
   request.1 = inr ("Manual recording started for " +:+ cam) /\
   recording request.2 !! cam = Some true /\
   disk request.2 = disk g /\
   disk after.2 = disk g /\
   match out with
   | None => after.1 = inl AttributeError
   | Some w => after.1 = inr (Next, Some w)
   end).
Proof.
  split; [apply manual_record_unknown|].
  intros Hcam Hprev He Hout.
  rewrite (manual_record_known cam g Hcam). cbn [fst snd disk recording].
  split; [reflexivity|]. split; [apply lookup_insert_eq|].
  split; [reflexivity|].
  run_body. rewrite He. cbn [prev_frame]. rewrite Hprev.
  cbn [prev_frame motion_detected recording disk fst snd].
  destruct out as [[name r]|]; [cbn in Hout; subst r|];
    destruct (existsb exceeds _);
    repeat first [rewrite lookup_insert_eq | progress cbn];
    split; reflexivity.
Qed.

(** C10.  After [manual_record] has set the flag of a camera whose thread
    has not created a writer yet, the next pass of that thread reaches
    [out.write(frame)] with the flag true and [out] still [None], and
    raises [AttributeError]. *)
Theorem manual_flag_without_writer_raises (cam : string) (g : globals)
    (e : env) (frame : Frame) (prev : Gray) :
  cam ∈ ["cam1"; "cam2"] ->
  prev_frame g = Some prev ->
  grabbed e = Some frame ->
  let g1 := (manual_record cam g).2 in
  let after := detect_motion_and_record e cam None g1 in
  recording g1 !! cam = Some true /\
  after.1 = inl AttributeError /\
  recording after.2 !! cam = Some true.
Proof.
  intros Hcam Hprev He.
  rewrite (manual_record_known cam g Hcam). cbn [snd].
  split; [apply lookup_insert_eq|].
  run_body. rewrite He. cbn [prev_frame]. rewrite Hprev.
  cbn [prev_frame motion_detected recording disk fst snd].
  destruct (existsb exceeds _);
    repeat first [rewrite lookup_insert_eq | progress cbn];
    split; reflexivity.
Qed.

(** A pass of the loop with an open writer: the frame is written, and the
    session goes on exactly when the pass reports motion. *)
Lemma session_pass e cam_key w g frame prev :
  grabbed e = Some frame ->
  prev_frame g = Some prev ->
  recording g !! cam_key = Some true ->
  released w = false ->
  let motion := existsb exceeds (findContours (mask DefaultKernel prev frame)) in
  let after := detect_motion_and_record e cam_key (Some w) g in
  after.1 = inr (Next, Some {| filename := filename w; released := negb motion |}) /\
  recording after.2 !! cam_key = Some motion /\
  disk after.2 = alter (fun frames => frames ++ [frame]) (filename w) (disk g).
Proof.
  intros He Hprev Hrec Hw. cbv zeta. unfold mask.
  run_body. rewrite He. cbn [prev_frame]. rewrite Hprev.
  cbn [prev_frame motion_detected recording disk fst snd].
  destruct (existsb exceeds _);
    repeat first [rewrite lookup_insert_eq | rewrite Hrec | rewrite Hw
                 | progress cbn];
    auto.
  destruct w as [name r]. cbn in Hw. subst r. auto.
Qed.

End AppFacts.

(** ** Stop policies *)

Section StopPolicy.
Context `{cv : Cv}.

(** C2 (as the code has it).  The stop condition goes with the code path,
    not with the trigger type.  In [camera.py] a session of either trigger
    type stays in its loop, whatever the stream and the other threads do in
    between, until its own loop test reads a clock value that is no longer
    less than 10 seconds past its start; that test ends it.  In the capture
    loop of [app.py] a session with an open writer writes the frame of
    every pass and goes on exactly when the pass reports motion: the first
    pass without motion clears the flag and releases the writer. *)
Theorem stop_policy_follows_code_path
    (schedule : list Camera.action) (s : Camera.system) (i : nat)
    (w : Camera.worker) (start : Q) (out : Camera.VideoWriter)
    (e_end : Camera.env)
    (e : App.env) (cam_key : string) (aw : App.VideoWriter) (g : App.globals)
    (frame : Frame) (prev : Gray) :
  Camera.threads s !! i = Some w ->
  Camera.at_pc w = Camera.InLoop start out ->
  (forall e', Camera.Schedule i e' ∈ schedule ->
              (Camera.clock e' - start < Camera.duration)%Q) ->
  ~ (Camera.clock e_end - start < Camera.duration)%Q ->
  App.grabbed e = Some frame ->
  App.prev_frame g = Some prev ->
  App.recording g !! cam_key = Some true ->
  App.released aw = false ->
  (Camera.threads (Camera.run schedule s) !! i = Some w /\
   Camera.threads (Camera.step (Camera.Schedule i e_end) (Camera.run schedule s)) !! i
   = Some (Camera.at_ (Camera.AtRelease out) w)) /\
  (let motion := existsb App.exceeds (findContours (mask DefaultKernel prev frame)) in
   let after := App.detect_motion_and_record e cam_key (Some aw) g in
   after.1 = inr (App.Next, Some {| App.filename := App.filename aw;
                                    App.released := negb motion |}) /\
   App.recording after.2 !! cam_key = Some motion /\
   App.disk after.2
   = alter (fun frames => frames ++ [frame]) (App.filename aw) (App.disk g)).
Proof.
  intros Hw Hpc Hearly Hlate He Hprev Hrec Hopen. split.
  - pose proof (session_stays_open schedule s i w start out Hw Hpc Hearly) as Hstay.
    split; [exact Hstay|].
    rewrite (step_loop_test _ _ _ _ _ _ Hstay Hpc).
    destruct (Camera.Qltb (Camera.clock e_end - start) Camera.duration) eqn:E;
      [|reflexivity].
    apply Qltb_spec in E. contradiction.
  - apply session_pass; assumption.
Qed.

End StopPolicy.

(** ** The statements on concrete frames *)

Section Concrete.
Import OneRow.

(** C2, as stated, fails in [camera.py]: a motion-triggered session is
    still open, and still writing, after the motion signal has read false;
    it ends at the loop test 10 seconds after its start. *)
Lemma motion_session_outlives_motion :
  let s0 := started with_camera in
  let s := Camera.run motion_clip s0 in
  Camera.motion_detected (Camera.camera (Camera.run (take 2 motion_clip) s0)) = true /\
  Camera.threads s =
    [ {| Camera.trigger_type := "motion";
         Camera.at_pc := Camera.InLoop 0
           {| Camera.filepath := "../recordings/motion_20240101_000000.mp4" |} |} ] /\
  Camera.motion_detected (Camera.camera s) = false /\
  Camera.is_recording (Camera.camera s) = true /\
  Camera.open_writers s = 1 /\
  Camera.open_writers
    (Camera.step (Camera.Schedule 0 (at_time 9 (Some busy_scene))) s) = 1 /\
  Camera.recordings
    (Camera.camera (Camera.step (Camera.Schedule 0 (at_time 9 (Some busy_scene))) s))
    !! "../recordings/motion_20240101_000000.mp4" = Some [busy_scene; busy_scene] /\
  Camera.threads (Camera.step (Camera.Schedule 0 (at_time 10 None)) s) =
    [ {| Camera.trigger_type := "motion";
         Camera.at_pc := Camera.AtRelease
           {| Camera.filepath := "../recordings/motion_20240101_000000.mp4" |} |} ].
Proof. vm_compute. repeat split; reflexivity. Qed.

(** The claim of C2 about motion-triggered sessions, read on [camera.py]:
    once the stream has read no motion, a motion-triggered thread holds no
    open writer and writes no further frame.  The run [motion_clip]
    refutes it: its thread is in its loop when the motion signal reads
    false, and writes the frame it reads at clock 9. *)
Lemma motion_session_not_bounded_by_motion :
  ~ (forall (schedule : list (@Camera.action ops)) (e : @Camera.env ops)
            (i : nat) (w : Camera.worker),
       let s := Camera.run schedule (started with_camera) in
       Camera.motion_detected (Camera.camera s) = false ->
       Camera.threads s !! i = Some w ->
       Camera.trigger_type w = "motion" ->
       Camera.writing w = false /\
       Camera.recordings (Camera.camera (Camera.step (Camera.Schedule i e) s))
       = Camera.recordings (Camera.camera s)).
Proof.
  intros H.
  specialize (H motion_clip (at_time 9 (Some busy_scene)) 0%nat
                {| Camera.trigger_type := "motion";
                   Camera.at_pc := Camera.InLoop 0
                     {| Camera.filepath := "../recordings/motion_20240101_000000.mp4" |} |}).
  cbv zeta in H.
  destruct H as [Hw _]; [vm_compute; reflexivity..|].
  discriminate Hw.
Qed.

Lemma stop_policy_follows_code_path_witness :
  (Camera.threads (Camera.run motion_clip (started with_camera)) !! 0%nat
   = Some {| Camera.trigger_type := "motion";
             Camera.at_pc := Camera.InLoop 0
               {| Camera.filepath := "../recordings/motion_20240101_000000.mp4" |} |}) /\
  (Camera.threads
     (Camera.run [Camera.NextFrame (at_time 3 (Some empty_scene));
                  Camera.Schedule 0 (at_time 4 (Some empty_scene))]
        (Camera.run motion_clip (started with_camera))) !! 0%nat
   = Some {| Camera.trigger_type := "motion";
             Camera.at_pc := Camera.InLoop 0
               {| Camera.filepath := "../recordings/motion_20240101_000000.mp4" |} |} /\
   Camera.threads
     (Camera.step (Camera.Schedule 0 (at_time 10 None))
        (Camera.run [Camera.NextFrame (at_time 3 (Some empty_scene));
                     Camera.Schedule 0 (at_time 4 (Some empty_scene))]
           (Camera.run motion_clip (started with_camera)))) !! 0%nat
   = Some {| Camera.trigger_type := "motion";
             Camera.at_pc := Camera.AtRelease
               {| Camera.filepath := "../recordings/motion_20240101_000000.mp4" |} |}) /\
  (let motion := existsb (@App.exceeds ops)
                   (@findContours ops
                      (@mask ops DefaultKernel
                         (@GaussianBlur ops (@cvtColor ops empty_scene) (21, 21)%Z 0)
                         empty_scene)) in
   let after := App.detect_motion_and_record (grab empty_scene) "cam1"
                  (Some clip) recording_globals in
   after.1 = inr (App.Next, Some {| App.filename := App.filename clip;
                                    App.released := negb motion |}) /\
   App.recording after.2 !! "cam1" = Some motion /\
   App.disk after.2
   = alter (fun frames => frames ++ [empty_scene]) (App.filename clip)
       (App.disk recording_globals)).
Proof.
  split; [vm_compute; reflexivity|].
  apply (@stop_policy_follows_code_path ops
           [Camera.NextFrame (at_time 3 (Some empty_scene));
            Camera.Schedule 0 (at_time 4 (Some empty_scene))]
           (Camera.run motion_clip (started with_camera)) 0%nat
           {| Camera.trigger_type := "motion";
              Camera.at_pc := Camera.InLoop 0
                {| Camera.filepath := "../recordings/motion_20240101_000000.mp4" |} |}
           0 {| Camera.filepath := "../recordings/motion_20240101_000000.mp4" |}
           (at_time 10 None)
           (grab empty_scene) "cam1" clip recording_globals empty_scene
           (@GaussianBlur ops (@cvtColor ops empty_scene) (21, 21)%Z 0)).
  - vm_compute. reflexivity.
  - reflexivity.
  - intros e' He'. apply list_elem_of_In in He'. simpl in He'.
    destruct He' as [He'|[He'|[]]]; [discriminate|].
    injection He' as <-. vm_compute. reflexivity.
  - vm_compute. discriminate.
  - reflexivity.
  - vm_compute. reflexivity.
  - vm_compute. reflexivity.
  - reflexivity.
Defined.

Lemma motion_iff_large_region_witness :
  Camera.last_frame seeded_camera = Some (@cvtColor ops empty_scene) /\
  ((Camera.detect_motion (busy_scene : @Frame ops) seeded_camera).1 = true <->
   exists c, c ∈ @findContours ops
                   (@mask ops (Ones 5 5) (@cvtColor ops empty_scene) busy_scene) /\
             (inject_Z (Camera.motion_threshold seeded_camera) < @contourArea ops c)%Q) /\
  (App.motion_detected
     (App.detect_motion_and_record (grab busy_scene) "cam1" None seeded_globals).2
     !! "cam1" = Some true <->
   exists c, c ∈ @findContours ops
                   (@mask ops DefaultKernel
                      (@GaussianBlur ops (@cvtColor ops empty_scene) (21, 21)%Z 0)
                      busy_scene) /\
             (inject_Z 5000 < @contourArea ops c)%Q).
Proof.
  split; [reflexivity|].
  apply (@motion_iff_large_region ops busy_scene seeded_camera
           (@cvtColor ops empty_scene) (grab busy_scene) "cam1" None
           seeded_globals
           (@GaussianBlur ops (@cvtColor ops empty_scene) (21, 21)%Z 0));
    reflexivity.
Defined.

(** The detector of [camera.py] does report the bright object. *)
Example bright_object_is_motion :
  (Camera.detect_motion (busy_scene : @Frame ops) seeded_camera).1 = true.
Proof. vm_compute. reflexivity. Qed.

Lemma no_device_streams_placeholder_witness :
  nothing_opens 3 = false /\
  @imencode ops (@Camera._create_dummy_frame ops)
    = Some (@Camera._create_dummy_frame ops) /\
  Camera.cap no_camera = None /\
  Camera.stream [at_time 0 None; at_time 1 None; at_time 2 None] no_camera
  = (replicate 3 (@part_of ops (@Camera._create_dummy_frame ops)), true).
Proof.
  split; [reflexivity|]. split; [reflexivity|].
  apply (@no_device_streams_placeholder ops nothing_opens 3 EventLog.Missing ∅
           (@Camera._create_dummy_frame ops)
           [at_time 0 None; at_time 1 None; at_time 2 None]).
  - reflexivity.
  - intros i _. reflexivity.
  - reflexivity.
Defined.

Lemma unlocked_flag_admits_two_writers_witness :
  Camera.cap with_camera = Some 3%Z /\
  Camera.is_recording with_camera = false /\
  let s := Camera.run (two_triggers (at_time 0 None)) (started with_camera) in
  Camera.open_writers s = 2 /\
  exists start out,
    Camera.threads s =
      [ {| Camera.trigger_type := "manual"; Camera.at_pc := Camera.InLoop start out |};
        {| Camera.trigger_type := "manual"; Camera.at_pc := Camera.InLoop start out |} ].
Proof.
  split; [reflexivity|]. split; [reflexivity|].
  apply (@unlocked_flag_admits_two_writers ops with_camera 3%Z (at_time 0 None));
    reflexivity.
Defined.

Lemma no_device_trigger_logs_and_writes_nothing_witness :
  let s := Camera.run [Camera.CallManualRecord (at_time 0 None)] (started no_camera) in
  let first := Camera._record_clip (at_time 2 None)
                 {| Camera.trigger_type := "motion"; Camera.at_pc := Camera.AtGuard |}
                 (Camera.camera s) in
  let second := Camera._record_clip (at_time 3 None) first.1 first.2 in
  let s' := Camera.run (manual_trigger (length (Camera.threads s))
                          (at_time 1 None) (at_time 2 None) (at_time 3 None)) s in
  exists old,
    EventLog.load_events (Camera.events (Camera.camera s)) = EventLog.JArr old /\
    (Camera.at_pc second.1 = Camera.Finished /\
     Camera.events second.2 =
       EventLog.Loaded (EventLog.JArr
         (old ++ [EventLog.event (Camera.iso_now (at_time 3 None))
                    ("motion" +:+ "_no_camera")])) /\
     Camera.recordings second.2 = ∅) /\
    (Camera.events (Camera.camera s') =
       EventLog.Loaded (EventLog.JArr
         (old ++ [EventLog.event (Camera.iso_now (at_time 1 None)) "manual_record";
                  EventLog.event (Camera.iso_now (at_time 3 None)) "manual_no_camera"])) /\
     Camera.recordings (Camera.camera s') = ∅ /\
     Camera.open_writers s' = 0).
Proof.
  apply (@no_device_trigger_logs_and_writes_nothing ops nothing_opens 3
           EventLog.Missing ∅ [Camera.CallManualRecord (at_time 0 None)]
           "motion" (at_time 1 None) (at_time 2 None) (at_time 3 None)).
  - reflexivity.
  - intros i _. reflexivity.
  - reflexivity.
Defined.

Lemma manual_record_checks_key_witness :
  @App.manual_record ops "cam3" (App.initial ∅)
  = (inl (App.HTTPException 400 "Invalid camera key"), App.initial ∅) /\
  App.recording (@App.manual_record ops "cam2" (App.initial ∅)).2
  = {[ "cam1" := false; "cam2" := true ]}.
Proof.
  split.
  - apply (proj1 (@manual_record_checks_key ops "cam3" (App.initial ∅))).
    apply (proj1 (bool_decide_eq_false _)). vm_compute. reflexivity.
  - rewrite (proj2 (@manual_record_checks_key ops "cam2" (App.initial ∅)));
      [|right; left].
    vm_compute. reflexivity.
Defined.

Lemma manual_record_starts_no_session_witness :
  let request := @App.manual_record ops "cam1" seeded_globals in
  let after := App.detect_motion_and_record (grab empty_scene) "cam1" None request.2 in
  request.1 = inr ("Manual recording started for " +:+ "cam1") /\
  App.recording request.2 !! "cam1" = Some true /\
  App.disk request.2 = App.disk seeded_globals /\
  App.disk after.2 = App.disk seeded_globals /\
  after.1 = inl App.AttributeError.
Proof.
  apply (proj2 (@manual_record_starts_no_session ops "cam1" seeded_globals
                  (grab empty_scene) empty_scene
                  (@GaussianBlur ops (@cvtColor ops empty_scene) (21, 21)%Z 0)
                  None)).
  - left.
  - reflexivity.
  - reflexivity.
  - exact I.
Defined.

Lemma manual_flag_without_writer_raises_witness :
  let g1 := (@App.manual_record ops "cam1" seeded_globals).2 in
  let after := App.detect_motion_and_record (grab empty_scene) "cam1" None g1 in
  App.recording g1 !! "cam1" = Some true /\
  after.1 = inl App.AttributeError /\
  App.recording after.2 !! "cam1" = Some true.
Proof.
  apply (@manual_flag_without_writer_raises ops "cam1" seeded_globals
           (grab empty_scene) empty_scene
           (@GaussianBlur ops (@cvtColor ops empty_scene) (21, 21)%Z 0)).
  - left.
  - reflexivity.
  - reflexivity.
Defined.

(** A scene that does not change at all reports motion on the second
    evaluation, where the blurred frame meets the unblurred reference, and
    none on the third. *)
Example static_scene_reports_motion :
  let second := Camera.detect_motion (striped : @Frame ops)
                  (Camera.detect_motion (striped : @Frame ops) with_camera).2 in
  second.1 = true /\ (Camera.detect_motion (striped : @Frame ops) second.2).1 = false.
Proof. vm_compute. split; reflexivity. Qed.

(** The thread of cam1 reads its first frame, a request sets the flag, and
    the thread ends in an exception on the frame after. *)
Example manual_record_ends_capture_thread :
  let g1 := (App.capture [grab empty_scene] "cam1" None (App.initial ∅)).2 in
  let g2 := (@App.manual_record ops "cam1" g1).2 in
  (App.capture [grab empty_scene; grab busy_scene] "cam1" None g2).1
  = inl App.AttributeError.
Proof. vm_compute. reflexivity. Qed.

(** When index 3 does not open and index 1 does, the camera is built on
    the device at index 1 and streams what that device delivers. *)
Example alternative_index_is_used :
  let self := @Camera.__init__ ops (only 1) 3 EventLog.Missing ∅ in
  Camera.cap self = Some 1%Z /\ Camera.camera_index self = 1%Z /\
  Camera.stream [at_time 0 (Some busy_scene)] self
  = ([@part_of ops busy_scene], true).
Proof. vm_compute. repeat split; reflexivity. Qed.

End Concrete.

(** * Further results *)

(** ** [get_recordings] *)

Section Recordings.
Import Camera.

Lemma place_perm x sorted : place x sorted ≡ₚ x :: sorted.
Proof.
  induction sorted as [|y rest IH]; simpl; [reflexivity|].
  destruct (String.leb (created y) (created x)); [reflexivity|].
  rewrite IH. apply Permutation_swap.
Qed.

Lemma sort_newest_first_perm entries : sort_newest_first entries ≡ₚ entries.
Proof.
  induction entries as [|x rest IH]; simpl; [reflexivity|].
  rewrite place_perm, IH. reflexivity.
Qed.

Lemma place_sorted x sorted :
  Sorted newer_or_same sorted -> Sorted newer_or_same (place x sorted).
Proof.
  induction 1 as [|y rest Hrest IH Hhd]; simpl.
  - repeat constructor.
  - destruct (String.leb (created y) (created x)) eqn:E.
    + constructor; [constructor; assumption|]. constructor. exact E.
    + constructor; [exact IH|].
      assert (Hyx : newer_or_same y x).
      { unfold newer_or_same.
        destruct (String.leb_total (created x) (created y)) as [H|H];
          [exact H|congruence]. }
      destruct Hhd as [|z rest' Hyz]; simpl.
      * constructor. exact Hyx.
      * destruct (String.leb (created z) (created x));
          constructor; assumption.
Qed.

Lemma sort_newest_first_sorted entries :
  Sorted newer_or_same (sort_newest_first entries).
Proof.
  induction entries as [|x rest IH]; simpl; [constructor|].
  apply place_sorted, IH.
Qed.

(** The listing comes newest first: every entry is at least as new, by its
    [created] string, as the one after it. *)
Theorem get_recordings_newest_first (isoformat : Q -> string)
    (listing : option (list (string * stat_result))) :
  Sorted newer_or_same (get_recordings isoformat listing).
Proof. unfold get_recordings. apply sort_newest_first_sorted. Qed.

(** The listing has one entry for each [.mp4] file of the directory, with
    that file's size and creation time, and nothing else. *)
Theorem get_recordings_lists_mp4_files (isoformat : Q -> string)
    (names : list (string * stat_result)) :
  get_recordings isoformat (Some names) ≡ₚ
    map (fun p => {| filename := p.1; size := st_size p.2;
                     created := isoformat (st_ctime p.2) |})
        (filter (fun p => endswith p.1 ".mp4" = true) names).
Proof.
  unfold get_recordings. rewrite sort_newest_first_perm.
  induction names as [|[name st] rest IH]; [reflexivity|].
  simpl. rewrite filter_cons. simpl.
  destruct (endswith name ".mp4"); case_decide; try congruence.
  - simpl. rewrite IH. reflexivity.
  - exact IH.
Qed.

End Recordings.

(** ** More of [camera.py] *)

Section CameraDevice.
Context `{cv : Cv}.
Import Camera.

Lemma try_indices_some isOpened candidates i :
  try_indices isOpened candidates = Some i ->
  isOpened i = true /\
  exists before after,
    candidates = before ++ i :: after /\
    forall j, j ∈ before -> isOpened j = false.
Proof.
  induction candidates as [|c rest IH]; simpl; [discriminate|].
  destruct (isOpened c) eqn:E.
  - intros [= <-]. split; [exact E|]. exists [], rest. split; [reflexivity|].
    intros j Hj. inversion Hj.
  - intros H. destruct (IH H) as (Hi & before & after & -> & Hbefore).
    split; [exact Hi|]. exists (c :: before), after. split; [reflexivity|].
    intros j Hj. inversion Hj; subst; auto.
Qed.

(** Whatever capture [_init_camera] leaves in [cap] did open, and
    [camera_index] names it.  It is the configured index when that one
    opens; otherwise it is the first of 1, 2, 3 that opens. *)
Theorem init_camera_holds_an_opened_device (isOpened : Z -> bool)
    (self : SecurityCamera) (i : Z) :
  cap (_init_camera isOpened self) = Some i ->
  isOpened i = true /\
  camera_index (_init_camera isOpened self) = i /\
  (isOpened (camera_index self) = true -> i = camera_index self) /\
  (isOpened (camera_index self) = false ->
   exists before after,
     [1; 2; 3]%Z = before ++ i :: after /\
     forall j, j ∈ before -> isOpened j = false).
Proof.
  unfold _init_camera.
  destruct (isOpened (camera_index self)) eqn:E0.
  - intros [= <-]. repeat split; auto. discriminate.
  - destruct (try_indices isOpened [1; 2; 3]%Z) as [k|] eqn:E; [|discriminate].
    intros [= <-]. destruct (try_indices_some _ _ _ E) as [Hk Hpre].
    repeat split; auto. discriminate.
Qed.

(** [get_camera] builds the object once.  When no device opened at the
    first call, every later call returns that same object, whatever
    devices can be opened by then, and its stream stays the placeholder. *)
Theorem get_camera_does_not_probe_again (first later : Z -> bool)
    (log log' : EventLog.store) (files files' : gmap string (list Frame))
    (buffer : Jpeg) (obs : list env) :
  first 3%Z = false ->
  (forall i, i ∈ [1; 2; 3]%Z -> first i = false) ->
  imencode _create_dummy_frame = Some buffer ->
  let once := get_camera first log files None in
  let again := get_camera later log' files' once.2 in
  again = once /\
  cap again.1 = None /\
  stream obs again.1 = (replicate (length obs) (part_of buffer), true).
Proof.
  intros H3 Halt Henc once again.
  assert (Hcap : cap once.1 = None).
  { apply init_camera_no_device. simpl. auto. }
  split; [reflexivity|]. split; [exact Hcap|].
  apply stream_no_device; assumption.
Qed.

(** *** The stream of a camera with a device *)

Lemma pass_reads_frame e self d frame :
  cap self = Some d ->
  EventLog.appendable (events self) = true ->
  written e = Some frame ->
  exists self' new,
    generate_frames e self = (encode frame, self', new) /\
    cap self' = Some d /\
    EventLog.appendable (events self') = true.
Proof.
  intros Hcap Hlog Hread. unfold written in Hread.
  unfold generate_frames. rewrite Hcap.
  destruct (opened e); [|discriminate]. rewrite Hread. simpl.
  destruct (detect_motion frame self) as [motion self1] eqn:Hd.
  assert (Hkeep : cap self1 = Some d /\ events self1 = events self).
  { unfold detect_motion in Hd.
    destruct (last_frame self); injection Hd as <- <-; auto. }
  destruct Hkeep as [Hcap1 Hev1].
  destruct (motion && negb (motion_detected self1)).
  - cbn [events set_motion_detected]. rewrite Hev1.
    destruct (log_event_appendable (iso_now e) "motion_detected" _ Hlog)
      as [st Hst].
    rewrite Hst. eexists _, _. split; [reflexivity|]. split; [exact Hcap1|].
    eapply log_event_result_appendable, Hst.
  - destruct (negb motion); eexists _, _; (split; [reflexivity|]);
      simpl; rewrite ?Hev1; auto.
Qed.

Lemma pass_fails_to_read e self d :
  cap self = Some d ->
  written e = None ->
  generate_frames e self = (Break, self, []).
Proof.
  intros Hcap Hread. unfold written in Hread.
  unfold generate_frames. rewrite Hcap.
  destruct (opened e); [|reflexivity]. rewrite Hread. reflexivity.
Qed.

(** With a device, the stream yields one part for every frame that is
    read and encodes, in the order read, and ends at the first read that
    fails; what the device would deliver after that is never looked at. *)
Theorem stream_ends_at_first_failed_read (good : list env) (bad : env)
    (rest : list env) (self : SecurityCamera) (d : Z) :
  cap self = Some d ->
  EventLog.appendable (events self) = true ->
  Forall (fun e => is_Some (written e)) good ->
  written bad = None ->
  stream good self = (omap part_for good, true) /\
  stream (good ++ bad :: rest) self = (omap part_for good, false).
Proof.
  intros Hcap Hlog Hgood Hbad. revert self Hcap Hlog.
  induction Hgood as [|e good [frame He] _ IH]; intros self Hcap Hlog.
  - split; [reflexivity|]. simpl.
    rewrite (pass_fails_to_read bad self d Hcap Hbad). reflexivity.
  - destruct (pass_reads_frame e self d frame Hcap Hlog He)
      as (self' & new & Hpass & Hcap' & Hlog').
    destruct (IH self' Hcap' Hlog') as [IH1 IH2].
    assert (Hpart : part_for e = match imencode frame with
                                 | Some buffer => Some (part_of buffer)
                                 | None => None
                                 end)
      by (unfold part_for; rewrite He; reflexivity).
    simpl. rewrite Hpass, !Hpart. unfold encode.
    destruct (imencode frame); rewrite IH1, IH2; split; reflexivity.
Qed.

(** While motion lasts, the stream does not trigger again: a pass that
    finds [motion_detected] already set starts no thread and logs
    nothing, whatever it reads. *)
Theorem no_trigger_while_motion_lasts (e : env) (self : SecurityCamera) :
  motion_detected self = true ->
  (generate_frames e self).2 = [] /\
  events (generate_frames e self).1.2 = events self /\
  is_recording (generate_frames e self).1.2 = is_recording self /\
  recordings (generate_frames e self).1.2 = recordings self.
Proof.
  destruct self as [idx c rec m reference thr log files]. simpl.
  intros ->. unfold generate_frames, detect_motion. simpl.
  destruct c; [|auto].
  destruct (opened e); [|auto]. destruct (grabbed e); [|auto]. simpl.
  destruct reference; simpl; rewrite ?andb_false_r;
    repeat case_match; simpl; auto.
Qed.

(** The first pass that detects motion after a pass without logs
    [motion_detected] as the last event and starts exactly one thread, of
    trigger type [motion]. *)
Theorem motion_edge_starts_one_thread (e : env) (self : SecurityCamera)
    (d : Z) (frame : Frame) (reference : Gray) (old : list EventLog.json) :
  cap self = Some d ->
  written e = Some frame ->
  last_frame self = Some reference ->
  motion_detected self = false ->
  EventLog.persisted (events self) = Some old ->
  significant (motion_threshold self)
    (findContours (mask (Ones 5 5) reference frame)) = true ->
  let after := generate_frames e self in
  after.2 = [ {| trigger_type := "motion"; at_pc := AtGuard |} ] /\
  motion_detected after.1.2 = true /\
  EventLog.persisted (events after.1.2)
  = Some (old ++ [EventLog.event (iso_now e) "motion_detected"]).
Proof.
  intros Hcap Hread Hlast Hm Hold Hsig. unfold written in Hread.
  cbv zeta. unfold generate_frames. rewrite Hcap.
  destruct (opened e); [|discriminate]. rewrite Hread. simpl.
  rewrite (detect_motion_seeded frame self reference Hlast).
  rewrite Hsig. cbn [motion_detected set_last_frame]. rewrite Hm. simpl.
  rewrite (log_event_persisted (iso_now e) "motion_detected" _ old Hold).
  simpl. auto.
Qed.

End CameraDevice.

(** ** A recording session from start to end *)

Section Session.
Context `{cv : Cv}.
Import Camera.

Lemma statements_app xs : forall ys w self w' self',
  statements xs w self = (w', self') ->
  statements (xs ++ ys) w self = statements ys w' self'.
Proof.
  induction xs as [|x xs IH]; intros ys w self w' self' H; simpl in *.
  - injection H as <- <-. reflexivity.
  - destruct (_record_clip x w self) as [w1 self1]. apply IH, H.
Qed.

Lemma loop_passes during : forall w self d start out,
  at_pc w = InLoop start out ->
  cap self = Some d ->
  Forall (fun e => Qltb (clock e - start) duration = true) during ->
  exists self',
    statements during w self = (w, self') /\
    cap self' = Some d /\
    is_recording self' = is_recording self /\
    events self' = events self /\
    recordings self'
    = alter (fun frames => frames ++ omap written during) (filepath out)
        (recordings self).
Proof.
  induction during as [|e rest IH]; intros w self d start out Hpc Hcap Hearly.
  - exists self. repeat split; auto. simpl.
    symmetry. apply alter_id. intros frames _. apply app_nil_r.
  - apply Forall_cons in Hearly as [He Hrest].
    assert (Hstep : exists self1,
               _record_clip e w self = (w, self1) /\
               cap self1 = Some d /\
               is_recording self1 = is_recording self /\
               events self1 = events self /\
               recordings self1
               = alter (fun frames => frames ++ from_option (fun f => [f]) [] (written e))
                   (filepath out) (recordings self)).
    { unfold _record_clip, written. rewrite Hpc, He, Hcap.
      destruct (opened e); [destruct (grabbed e)|]; simpl;
        eexists; (split; [reflexivity|]); repeat split; auto;
        symmetry; apply alter_id; intros frames _; apply app_nil_r. }
    destruct Hstep as (self1 & Hrun & Hcap1 & Hrec1 & Hev1 & Hfiles1).
    destruct (IH w self1 d start out Hpc Hcap1 Hrest)
      as (self' & Hrun' & Hcap' & Hrec' & Hev' & Hfiles').
    exists self'. simpl. rewrite Hrun. repeat split; try congruence.
    rewrite Hfiles', Hfiles1, alter_alter_eq.
    apply alter_ext. intros frames _. simpl.
    rewrite <- app_assoc. f_equal. destruct (written e); reflexivity.
Qed.

(** A thread that runs alone, on a camera with a device that is not
    recording, goes through one whole session: it creates the clip named
    after its trigger type and the time stamp it reads, writes to it the
    frames read while less than 10 seconds have passed since it started,
    in that order, and ends with the flag cleared.  The event log is not
    touched. *)
Theorem session_records_its_window (self : SecurityCamera) (d : Z)
    (ty : string) (e1 e2 e3 e_open : env) (during : list env)
    (e_late e_release e_clear : env) :
  cap self = Some d ->
  is_recording self = false ->
  Forall (fun e => (clock e - clock e_open < duration)%Q) during ->
  ~ (clock e_late - clock e_open < duration)%Q ->
  let final :=
    statements ([e1; e2; e3; e_open] ++ during ++ [e_late; e_release; e_clear])
      {| trigger_type := ty; at_pc := AtGuard |} self in
  final.1 = {| trigger_type := ty; at_pc := Finished |} /\
  is_recording final.2 = false /\
  events final.2 = events self /\
  recordings final.2
  = <[clip_path ty e_open := omap written during]> (recordings self).
Proof.
  intros Hcap Hrec Hearly Hlate. cbv zeta.
  assert (Hearly' : Forall (fun e => Qltb (clock e - clock e_open) duration = true)
                      during).
  { eapply Forall_impl; [exact Hearly|]. intros e He. apply Qltb_spec, He. }
  assert (Hlate' : Qltb (clock e_late - clock e_open) duration = false).
  { destruct (Qltb _ _) eqn:E; [|reflexivity]. apply Qltb_spec in E. contradiction. }
  set (w_loop := {| trigger_type := ty;
                    at_pc := InLoop (clock e_open)
                               {| filepath := clip_path ty e_open |} |}).
  set (opened_clip := set_recordings (<[clip_path ty e_open := []]> (recordings self))
                        (set_is_recording true self)).
  assert (Hstart : statements [e1; e2; e3; e_open]
                     {| trigger_type := ty; at_pc := AtGuard |} self
                   = (w_loop, opened_clip)).
  { cbn [statements]. unfold _record_clip at 1. cbn [at_pc trigger_type at_].
    rewrite Hrec.
    unfold _record_clip at 1. cbn [at_pc trigger_type at_]. rewrite Hcap.
    reflexivity. }
  destruct (loop_passes during w_loop opened_clip d (clock e_open)
              {| filepath := clip_path ty e_open |} eq_refl Hcap Hearly')
    as (self' & Hrun & Hcap' & Hrec' & Hev' & Hfiles').
  assert (Hend : statements [e_late; e_release; e_clear] w_loop self'
                 = ({| trigger_type := ty; at_pc := Finished |},
                    set_is_recording false self')).
  { cbn [statements]. unfold _record_clip at 1. cbn [at_pc trigger_type at_ w_loop].
    rewrite Hlate'. reflexivity. }
  rewrite (statements_app _ _ _ _ _ _ Hstart),
    (statements_app _ _ _ _ _ _ Hrun), Hend.
  cbn [fst snd is_recording events recordings set_is_recording].
  repeat split; auto.
  rewrite Hfiles'. subst opened_clip.
  cbn [recordings set_recordings set_is_recording filepath].
  rewrite alter_insert_eq. reflexivity.
Qed.

End Session.

(** ** More of [app.py] *)

Section AppLoop.
Context `{cv : Cv}.
Import App.

Ltac run_body :=
  unfold detect_motion_and_record, record_frame, manual_record, toggle_motion,
    bind, getitem, set_prev_frame, set_motion_detected, set_recording,
    new_writer, out_write, out_release, set_disk, ret, raise;
  cbn [prev_frame motion_detected recording disk fst snd].

Ltac crunch :=
  repeat first [rewrite lookup_insert_eq | progress cbn].

Lemma known_key_has_dir cam :
  cam ∈ ["cam1"; "cam2"] -> exists dir, output_dirs !! cam = Some dir.
Proof.
  intros H. apply list_elem_of_In in H. simpl in H.
  destruct H as [<-|[<-|[]]]; eexists; reflexivity.
Qed.

(** A pass that has a reference: the reference and the motion flag are
    replaced, then the recording statements run. *)
Lemma pass_from_reference e cam out g frame prev :
  prev_frame g = Some prev ->
  grabbed e = Some frame ->
  detect_motion_and_record e cam out g
  = bind (record_frame e cam frame out) (fun out' => ret (Next, out'))
      {| prev_frame := Some (GaussianBlur (cvtColor frame) (21, 21)%Z 0);
         motion_detected :=
           <[cam := existsb exceeds (findContours (mask DefaultKernel prev frame))]>
             (motion_detected g);
         recording := recording g;
         disk := disk g |}.
Proof.
  intros Hprev He. unfold detect_motion_and_record. rewrite He, Hprev.
  reflexivity.
Qed.

(** Toggling twice gives back the globals as they were, and the two calls
    report the negated and then the original status. *)
Theorem toggle_motion_twice (cam : string) (g : globals) (flag : bool) :
  cam ∈ ["cam1"; "cam2"] ->
  motion_detected g !! cam = Some flag ->
  let once := toggle_motion cam g in
  let twice := toggle_motion cam once.2 in
  once.1 = inr ("Motion detection toggled for " +:+ cam, negb flag) /\
  twice.1 = inr ("Motion detection toggled for " +:+ cam, flag) /\
  twice.2 = g.
Proof.
  intros Hcam Hflag. cbv zeta. unfold toggle_motion.
  rewrite bool_decide_eq_true_2 by exact Hcam.
  run_body. rewrite Hflag. crunch. rewrite negb_involutive.
  repeat split. destruct g as [p md r dk]. cbn in *. f_equal.
  rewrite insert_insert_eq. apply insert_id, Hflag.
Qed.


Lemma record_frame_prev_frame e cam frame out g :
  prev_frame (record_frame e cam frame out g).2 = prev_frame g.
Proof.
  run_body. repeat (case_match; simplify_eq/=; try reflexivity).
Qed.

(** After a pass that read a frame, the reference is the blurred grayscale
    of that frame, whatever else the pass did. *)
Lemma reference_after_pass e cam out g frame :
  grabbed e = Some frame ->
  prev_frame (detect_motion_and_record e cam out g).2
  = Some (GaussianBlur (cvtColor frame) (21, 21)%Z 0).
Proof.
  intros He. destruct (prev_frame g) as [prev|] eqn:Hprev.
  - rewrite (pass_from_reference e cam out g frame prev Hprev He).
    unfold bind at 1.
    match goal with
    | |- context [record_frame ?e ?k ?f ?o ?g0] =>
        pose proof (record_frame_prev_frame e k f o g0) as Hkeep;
        destruct (record_frame e k f o g0) as [[x|o'] g1]
    end; simpl in *; exact Hkeep.
  - apply app_seed_is_blurred; assumption.
Qed.

(** A pass of a thread whose flag is clear: motion starts a clip named
    after the time stamp and writes the frame to it; without motion nothing
    happens. *)
Lemma idle_pass e cam out g frame prev dir :
  grabbed e = Some frame ->
  prev_frame g = Some prev ->
  recording g !! cam = Some false ->
  output_dirs !! cam = Some dir ->
  let motion := existsb exceeds (findContours (mask DefaultKernel prev frame)) in
  let name := dir +:+ "/motion_" +:+ stamp_now e +:+ ".avi" in
  let after := detect_motion_and_record e cam out g in
  after.1 = inr (Next, if motion
                       then Some {| filename := name; released := false |}
                       else out) /\
  recording after.2 !! cam = Some motion /\
  disk after.2 = (if motion then <[name := [frame]]> (disk g) else disk g).
Proof.
  intros He Hprev Hrec Hdir. cbv zeta. unfold mask.
  run_body. rewrite He. cbn [prev_frame]. rewrite Hprev.
  cbn [prev_frame motion_detected recording disk fst snd].
  destruct (existsb exceeds _);
    repeat first [rewrite lookup_insert_eq | rewrite Hrec | rewrite Hdir
                 | progress cbn];
    rewrite ?alter_insert_eq; auto.
Qed.

(** Left to itself, the loop never raises and keeps flag and writer in
    step: whatever frames arrive, after every run of passes the flag of the
    camera is set exactly when its thread holds an open writer. *)
Theorem capture_keeps_flag_and_writer_in_step (obs : list env)
    (cam : string) (out : option VideoWriter) (g : globals) :
  cam ∈ ["cam1"; "cam2"] ->
  in_step cam out g ->
  exists out',
    (capture obs cam out g).1 = inr out' /\
    in_step cam out' (capture obs cam out g).2.
Proof.
  intros Hcam. destruct (known_key_has_dir cam Hcam) as [dir Hdir].
  revert out g. induction obs as [|e rest IH]; intros out g Hstep.
  - exists out. split; [reflexivity|exact Hstep].
  - assert (Hpass : exists flow out1,
               (detect_motion_and_record e cam out g).1 = inr (flow, out1) /\
               in_step cam out1 (detect_motion_and_record e cam out g).2).
    { destruct (grabbed e) as [frame|] eqn:He.
      2:{ exists Stop, out. unfold detect_motion_and_record. rewrite He.
          split; [reflexivity|exact Hstep]. }
      destruct (prev_frame g) as [prev|] eqn:Hprev.
      2:{ exists Next, out. unfold detect_motion_and_record. rewrite He, Hprev.
          split; [reflexivity|exact Hstep]. }
      destruct Hstep as [[Hrec (w & -> & Hw)]|[Hrec Hout]].
      - destruct (session_pass e cam w g frame prev He Hprev Hrec Hw)
          as (H1 & H2 & _).
        eexists _, _. split; [exact H1|].
        destruct (existsb exceeds _).
        + left. split; [exact H2|]. eexists. split; reflexivity.
        + right. split; [exact H2|]. intros w' [= <-]. reflexivity.
      - destruct (idle_pass e cam out g frame prev dir He Hprev Hrec Hdir)
          as (H1 & H2 & _).
        eexists _, _. split; [exact H1|].
        destruct (existsb exceeds _).
        + left. split; [exact H2|]. eexists. split; reflexivity.
        + right. split; [exact H2|exact Hout]. }
    destruct Hpass as (flow & out1 & Hres & Hstep1).
    cbn [capture]. unfold bind.
    destruct (detect_motion_and_record e cam out g) as [[x|[fl o1]] g1];
      cbn in Hres, Hstep1; [discriminate|].
    injection Hres as -> ->.
    destruct flow.
    + apply IH, Hstep1.
    + exists out1. split; [reflexivity|exact Hstep1].
Qed.

(** The two capture threads share one reference: when the thread of one
    camera has seeded it, the first frame of the other camera is not a
    seeding frame but is compared with the frame of the first camera. *)
Theorem reference_is_shared_between_cameras (first second : string)
    (e1 e2 : env) (out1 out2 : option VideoWriter) (g : globals)
    (frame1 frame2 : Frame) :
  prev_frame g = None ->
  grabbed e1 = Some frame1 ->
  grabbed e2 = Some frame2 ->
  let g1 := (detect_motion_and_record e1 first out1 g).2 in
  motion_detected (detect_motion_and_record e2 second out2 g1).2 !! second
  = Some (existsb exceeds
            (findContours
               (mask DefaultKernel
                  (GaussianBlur (cvtColor frame1) (21, 21)%Z 0) frame2))).
Proof.
  intros Hnone He1 He2. cbv zeta.
  apply app_motion_flag; [exact He2|].
  apply app_seed_is_blurred; assumption.
Qed.

(** A [/record] request for a camera whose flag is already set leaves
    every global as it is. *)
Theorem manual_record_during_session (cam : string) (g : globals) :
  recording g !! cam = Some true ->
  (manual_record cam g).2 = g.
Proof.
  intros Hrec. unfold manual_record.
  destruct (bool_decide (cam ∈ ["cam1"; "cam2"])); [|reflexivity].
  run_body. cbn. destruct g as [p md r dk]. cbn in *. f_equal.
  apply insert_id, Hrec.
Qed.

(** With the flag set and a writer that has been released, as after a
    [/record] request that follows a finished clip, a pass writes nothing
    and starts no new clip, with or without motion; the flag stays set as
    long as motion lasts. *)
Theorem released_writer_drops_frames (e : env) (cam : string)
    (w : VideoWriter) (g : globals) (frame : Frame) (prev : Gray) :
  grabbed e = Some frame ->
  prev_frame g = Some prev ->
  recording g !! cam = Some true ->
  released w = true ->
  let motion := existsb exceeds (findContours (mask DefaultKernel prev frame)) in
  let after := detect_motion_and_record e cam (Some w) g in
  after.1 = inr (Next, Some w) /\
  disk after.2 = disk g /\
  recording after.2 !! cam = Some motion.
Proof.
  intros He Hprev Hrec Hw. cbv zeta. unfold mask.
  run_body. rewrite He. cbn [prev_frame]. rewrite Hprev.
  cbn [prev_frame motion_detected recording disk fst snd].
  destruct (existsb exceeds _);
    repeat first [rewrite lookup_insert_eq | rewrite Hrec | rewrite Hw
                 | progress cbn];
    auto.
  destruct w as [name r]. cbn in Hw. subst r. auto.
Qed.

Lemma capture_next e rest cam out g out1 :
  (detect_motion_and_record e cam out g).1 = inr (Next, out1) ->
  capture (e :: rest) cam out g
  = capture rest cam out1 (detect_motion_and_record e cam out g).2.
Proof.
  intros H. cbn [capture]. unfold bind.
  destruct (detect_motion_and_record e cam out g) as [[x|[fl o1]] g1];
    cbn in H; [discriminate|].
  injection H as -> ->. reflexivity.
Qed.

Lemma reads_cons stamp frame stamped :
  reads ((stamp, frame) :: stamped)
  = {| stamp_now := stamp; grabbed := Some frame |} :: reads stamped.
Proof. reflexivity. Qed.

Lemma clip_goes_on cam stamp_end frame_end (more : list (string * Frame)) :
  forall g prev acc files w,
    released w = false ->
    prev_frame g = Some prev ->
    recording g !! cam = Some true ->
    disk g = <[filename w := acc]> files ->
    episode prev (map snd more ++ [frame_end])
      = replicate (length more) true ++ [false] ->
    let after := capture (reads (more ++ [(stamp_end, frame_end)])) cam (Some w) g in
    after.1 = inr (Some {| filename := filename w; released := true |}) /\
    recording after.2 !! cam = Some false /\
    disk after.2 = <[filename w := acc ++ map snd more ++ [frame_end]]> files.
Proof.
  induction more as [|[stamp frame] rest IH];
    intros g prev acc files w Hw Hprev Hrec Hdisk Hepisode; cbv zeta.
  - simpl in Hepisode. injection Hepisode as Hm.
    destruct (session_pass {| stamp_now := stamp_end; grabbed := Some frame_end |}
                cam w g frame_end prev eq_refl Hprev Hrec Hw)
      as (H1 & H2 & H3).
    rewrite Hm in H1, H2. cbn [negb] in H1.
    cbn [app]. rewrite reads_cons, (capture_next _ _ _ _ _ _ H1).
    cbn [reads map capture ret fst snd].
    split; [reflexivity|]. split; [exact H2|].
    rewrite H3, Hdisk, alter_insert_eq. reflexivity.
  - simpl in Hepisode. injection Hepisode as Hm Hrest.
    destruct (session_pass {| stamp_now := stamp; grabbed := Some frame |}
                cam w g frame prev eq_refl Hprev Hrec Hw)
      as (H1 & H2 & H3).
    rewrite Hm in H1, H2. cbn [negb] in H1.
    rewrite <- app_comm_cons, reads_cons, (capture_next _ _ _ _ _ _ H1).
    pose proof (reference_after_pass {| stamp_now := stamp; grabbed := Some frame |}
                  cam (Some w) g frame eq_refl) as Href.
    rewrite Hdisk, alter_insert_eq in H3.
    destruct (IH _ _ (acc ++ [frame]) files
                {| filename := filename w; released := false |}
                eq_refl Href H2 H3 Hrest) as (R1 & R2 & R3).
    split; [exact R1|]. split; [exact R2|].
    rewrite R3. cbn [filename map snd]. rewrite <- app_assoc. reflexivity.
Qed.

(** A clip started by motion holds the frame that started it, every frame
    read while motion lasted, and the first frame without motion, in that
    order; it is named after the time stamp of its first frame, and when it
    ends the writer is released and the flag is clear. *)
Theorem motion_clip_contents (cam dir : string) (out : option VideoWriter)
    (g : globals) (prev : Gray) (stamp0 : string) (frame0 : Frame)
    (more : list (string * Frame)) (stamp_end : string) (frame_end : Frame) :
  output_dirs !! cam = Some dir ->
  prev_frame g = Some prev ->
  recording g !! cam = Some false ->
  episode prev (frame0 :: map snd more ++ [frame_end])
    = replicate (S (length more)) true ++ [false] ->
  let name := dir +:+ "/motion_" +:+ stamp0 +:+ ".avi" in
  let after := capture (reads ((stamp0, frame0) :: more ++ [(stamp_end, frame_end)]))
                 cam out g in
  after.1 = inr (Some {| filename := name; released := true |}) /\
  recording after.2 !! cam = Some false /\
  disk after.2 = <[name := frame0 :: map snd more ++ [frame_end]]> (disk g).
Proof.
  intros Hdir Hprev Hrec Hepisode. cbv zeta.
  simpl in Hepisode. injection Hepisode as Hm Hrest.
  destruct (idle_pass {| stamp_now := stamp0; grabbed := Some frame0 |}
              cam out g frame0 prev dir eq_refl Hprev Hrec Hdir)
    as (H1 & H2 & H3).
  rewrite Hm in H1, H2, H3. cbn [stamp_now] in H1, H3.
  rewrite reads_cons, (capture_next _ _ _ _ _ _ H1).
  pose proof (reference_after_pass {| stamp_now := stamp0; grabbed := Some frame0 |}
                cam out g frame0 eq_refl) as Href.
  exact (clip_goes_on cam stamp_end frame_end more _ _ [frame0] (disk g)
           {| filename := dir +:+ "/motion_" +:+ stamp0 +:+ ".avi";
              released := false |}
           eq_refl Href H2 H3 Hrest).
Qed.

End AppLoop.

(** ** [detect_camera_path] *)

Section DevicePaths.
Import Text App.

Lemma lstrip_head s :
  match lstrip s with
  | EmptyString => True
  | String c _ => is_space c = false
  end.
Proof.
  induction s as [|c rest IH]; simpl; [exact I|].
  destruct (is_space c) eqn:E; [exact IH|exact E].
Qed.

Lemma rstrip_head c rest :
  is_space c = false -> rstrip (String c rest) = String c (rstrip rest).
Proof. intros E. simpl. rewrite E. destruct (rstrip rest); reflexivity. Qed.

Lemma strip_head s :
  strip s = EmptyString \/
  exists c rest, strip s = String c rest /\ is_space c = false.
Proof.
  unfold strip. pose proof (lstrip_head s) as H.
  destruct (lstrip s) as [|c rest]; [left; reflexivity|].
  right. rewrite (rstrip_head c rest H). eauto.
Qed.

Lemma split_lines_first c rest :
  is_space c = false ->
  exists line lines, split_lines (String c rest) = String c line :: lines.
Proof.
  intros E. simpl.
  destruct (Ascii.eqb c LF) eqn:Hc.
  - apply Ascii.eqb_eq in Hc. subst c. discriminate E.
  - destruct (split_lines rest); eauto.
Qed.

Lemma match_keywords_with_device keywords : forall device path matches,
  exists matches',
    match_keywords keywords (Some device) path matches = inr matches' /\
    forall k,
      matches' !! k =
        if bool_decide (k ∈ keywords) && contains (lower k) (lower device)
        then Some path else matches !! k.
Proof.
  induction keywords as [|name rest IH]; intros device path matches.
  - exists matches. split; [reflexivity|]. intros k.
    rewrite bool_decide_eq_false_2 by (intros H; inversion H). reflexivity.
  - cbn [match_keywords].
    destruct (IH device path
                (if contains (lower name) (lower device)
                 then <[name := path]> matches else matches))
      as (matches' & Hrun & Hlook).
    exists matches'. split; [exact Hrun|]. intros k. rewrite Hlook.
    destruct (decide (k = name)) as [->|Hne].
    + rewrite (bool_decide_eq_true_2 (name ∈ name :: rest)) by left.
      destruct (contains (lower name) (lower device));
        rewrite ?andb_true_r, ?andb_false_r; [|reflexivity].
      destruct (bool_decide (name ∈ rest)); [reflexivity|].
      apply lookup_insert_eq.
    + assert (Hsame : bool_decide (k ∈ name :: rest) = bool_decide (k ∈ rest)).
      { apply bool_decide_ext. split.
        - intros H. inversion H; subst; [contradiction|assumption].
        - intros H. right. exact H. }
      rewrite Hsame.
      destruct (bool_decide (k ∈ rest) && contains (lower k) (lower device));
        [reflexivity|].
      destruct (contains (lower name) (lower device)); [|reflexivity].
      apply lookup_insert_ne. congruence.
Qed.

(** Once a device line has been seen, no later line raises, and the keys
    that get a value are keywords. *)
Lemma scan_with_device keywords lines : forall device matches,
  (forall k, is_Some (matches !! k) -> k ∈ keywords) ->
  exists device' matches',
    scan keywords lines (Some device, matches) = inr (Some device', matches') /\
    forall k, is_Some (matches' !! k) -> k ∈ keywords.
Proof.
  induction lines as [|line rest IH]; intros device matches Hkeys.
  - exists device, matches. split; [reflexivity|exact Hkeys].
  - cbn [scan scan_line].
    destruct (String.eqb (strip line) ""); [apply IH, Hkeys|].
    destruct (negb (startswith line TAB)); [apply IH, Hkeys|].
    destruct (match_keywords_with_device keywords device (strip line) matches)
      as (matches' & Hrun & Hlook).
    rewrite Hrun. apply IH. intros k. rewrite Hlook.
    destruct (bool_decide (k ∈ keywords)) eqn:Hk.
    + intros _. apply bool_decide_eq_true in Hk. exact Hk.
    + cbn [andb]. apply Hkeys.
Qed.

(** [detect_camera_path] never raises: after [strip()] and [split] the
    first line is either the only, empty one, or it is a device line, so
    [current_device] is set before any indented line is reached.  The
    dictionary it returns has keywords as its only keys. *)
Theorem detect_camera_path_returns (keywords : list string) (stdout : string) :
  exists matches,
    detect_camera_path keywords stdout = inr matches /\
    forall k, is_Some (matches !! k) -> k ∈ keywords.
Proof.
  unfold detect_camera_path.
  destruct (strip_head stdout) as [->|(c & rest & -> & Hc)].
  - exists ∅. split; [reflexivity|]. intros k [x Hx].
    rewrite lookup_empty in Hx. discriminate.
  - destruct (split_lines_first c rest Hc) as (line & lines & ->).
    cbn [scan scan_line].
    assert (Hline : strip (String c line) <> "").
    { unfold strip. cbn [lstrip]. rewrite Hc, (rstrip_head c line Hc).
      discriminate. }
    apply String.eqb_neq in Hline. rewrite Hline.
    assert (Htab : startswith (String c line) TAB = false).
    { unfold startswith, TAB. cbn [String.prefix].
      destruct (Ascii.ascii_dec _ c) as [<-|]; [discriminate Hc|reflexivity]. }
    rewrite Htab. cbn [negb].
    destruct (scan_with_device keywords lines (String c line) ∅)
      as (device' & matches' & Hrun & Hkeys).
    { intros k [x Hx]. rewrite lookup_empty in Hx. discriminate. }
    rewrite Hrun. exists matches'. split; [reflexivity|exact Hkeys].
Qed.

Lemma scan_paths keywords device name : forall paths matches,
  name ∈ keywords ->
  contains (lower name) (lower device) = true ->
  Forall (fun line => strip line <> "" /\ startswith line TAB = true) paths ->
  exists matches',
    scan keywords paths (Some device, matches) = inr (Some device, matches') /\
    matches' !! name = from_option (fun line => Some (strip line))
                         (matches !! name) (last paths).
Proof.
  intros paths matches Hname Hhit Hpaths. revert matches.
  induction Hpaths as [|line rest [Hline Htab] _ IH]; intros matches.
  - exists matches. split; reflexivity.
  - cbn [scan scan_line].
    apply String.eqb_neq in Hline. rewrite Hline, Htab. cbn [negb].
    destruct (match_keywords_with_device keywords device (strip line) matches)
      as (matches1 & Hrun & Hlook).
    rewrite Hrun. destruct (IH matches1) as (matches' & Hscan & Hlast).
    exists matches'. split; [exact Hscan|]. rewrite Hlast.
    destruct rest as [|next rest'].
    + cbn. rewrite Hlook, (bool_decide_eq_true_2 _ Hname), Hhit. reflexivity.
    + rewrite last_cons_cons.
      destruct (last (next :: rest')) eqn:E; [reflexivity|].
      apply last_None in E. discriminate.
Qed.

(** When a device whose name contains a keyword (compared in lower case)
    lists several paths, the keyword ends up with the last path listed, not
    the first. *)
Theorem last_listed_path_wins (keywords : list string) (device : string)
    (paths : list string) (path name : string)
    (current_device : option string) (matches : gmap string string) :
  strip device <> "" ->
  startswith device TAB = false ->
  Forall (fun line => strip line <> "" /\ startswith line TAB = true) paths ->
  last paths = Some path ->
  name ∈ keywords ->
  contains (lower name) (lower device) = true ->
  exists matches',
    scan keywords (device :: paths) (current_device, matches)
    = inr (Some device, matches') /\
    matches' !! name = Some (strip path).
Proof.
  intros Hdev Htab Hpaths Hlast Hname Hhit.
  cbn [scan scan_line]. apply String.eqb_neq in Hdev.
  rewrite Hdev, Htab. cbn [negb].
  destruct (scan_paths keywords device name paths matches Hname Hhit Hpaths)
    as (matches' & Hscan & Hlook).
  exists matches'. split; [exact Hscan|]. rewrite Hlook, Hlast. reflexivity.
Qed.

(** Output that is empty or only white space names no device: both
    cameras get their default paths. *)
Theorem blank_output_gives_default_paths (stdout : string) :
  strip stdout = "" ->
  cam_paths stdout = inr ("/dev/video2", "/dev/video3").
Proof.
  intros H. unfold cam_paths, detect_camera_path. rewrite H. reflexivity.
Qed.

End DevicePaths.

(** ** Opening and releasing cameras in [gui_with_preview.py] *)

Section GuiCameras.
Context `{cv : Cv}.
Import Gui.

Lemma init_camera_same_keys isOpened cam_id self :
  same_keys self -> same_keys (init_camera isOpened cam_id self).2.
Proof.
  intros (H1 & H2 & H3 & H4). unfold init_camera.
  destruct (cameras self !! cam_id) as [info|]; [|repeat split; assumption].
  destruct (if isOpened (index info) then _ else _);
    [|repeat split; assumption].
  unfold same_keys. cbn. rewrite !dom_insert_L, H1, H2, H3, H4. auto.
Qed.

Lemma release_camera_same_keys cam_id self :
  same_keys self ->
  (release_camera cam_id self).1 = None /\
  same_keys (release_camera cam_id self).2 /\
  caps (release_camera cam_id self).2 !! cam_id = None.
Proof.
  intros (H1 & H2 & H3 & H4). unfold release_camera.
  destruct (caps self !! cam_id) as [i|] eqn:Hcap;
    [|split; [reflexivity|]; split; [repeat split; assumption|exact Hcap]].
  assert (Hin : cam_id ∈ dom (caps self)) by (apply elem_of_dom; eauto).
  assert (Hf : is_Some (frames self !! cam_id))
    by (apply elem_of_dom; rewrite H1; exact Hin).
  assert (Hl : is_Some (last_frames (detector self) !! cam_id))
    by (apply elem_of_dom; rewrite H2; exact Hin).
  assert (Hm : is_Some (motion_detected self !! cam_id))
    by (apply elem_of_dom; rewrite H3; exact Hin).
  assert (Hr : is_Some (recording self !! cam_id))
    by (apply elem_of_dom; rewrite H4; exact Hin).
  destruct Hf as [? Hf], Hl as [? Hl], Hm as [? Hm], Hr as [? Hr].
  cbn. rewrite Hf. cbn. rewrite Hl. cbn. rewrite Hm. cbn. rewrite Hr. cbn.
  split; [reflexivity|]. split; [|apply lookup_delete_eq].
  unfold same_keys. cbn. rewrite !dom_delete_L, H1, H2, H3, H4. auto.
Qed.

(** However cameras are opened and released, the five per-camera
    dictionaries keep the same keys; so [release_camera] finds every key
    it deletes and never raises [KeyError], and the camera is gone from
    [caps] afterwards. *)
Theorem release_camera_never_raises (requests : list request)
    (cam_id : string) (self : monitor) :
  same_keys self ->
  let window := serve_all requests self in
  same_keys window /\
  (release_camera cam_id window).1 = None /\
  same_keys (release_camera cam_id window).2 /\
  caps (release_camera cam_id window).2 !! cam_id = None.
Proof.
  intros Hself. cbv zeta.
  assert (Hwindow : same_keys (serve_all requests self)).
  { revert self Hself. unfold serve_all.
    induction requests as [|r rest IH]; intros self Hself; [exact Hself|].
    simpl. apply IH. destruct r as [isOpened c|c]; simpl.
    - apply init_camera_same_keys, Hself.
    - apply release_camera_same_keys, Hself. }
  split; [exact Hwindow|]. apply release_camera_same_keys, Hwindow.
Qed.

(** A camera that has just been opened has no reference, whatever
    reference it had before: its first frame reports no motion. *)
Theorem opened_camera_starts_without_reference (isOpened : Z -> bool)
    (cam_id : string) (self : monitor) (info : camera_info) (i : Z)
    (frame : Frame) :
  cameras self !! cam_id = Some info ->
  caps self !! cam_id = None ->
  caps (init_camera isOpened cam_id self).2 !! cam_id = Some i ->
  last_frames (detector (init_camera isOpened cam_id self).2) !! cam_id
    = Some None /\
  (detect_motion cam_id frame (detector (init_camera isOpened cam_id self).2)).1
    = false.
Proof.
  intros Hinfo Hbefore Hopened. unfold init_camera in *. rewrite Hinfo in *.
  destruct (if isOpened (index info) then _ else _).
  - cbn. unfold detect_motion. cbn. rewrite lookup_insert_eq. auto.
  - cbn in Hopened. congruence.
Qed.

(** *** The check boxes *)

Lemma init_camera_elsewhere isOpened cam_id other self :
  other <> cam_id ->
  caps (init_camera isOpened cam_id self).2 !! other = caps self !! other /\
  cameras (init_camera isOpened cam_id self).2 !! other = cameras self !! other.
Proof.
  intros Hne. unfold init_camera.
  destruct (cameras self !! cam_id) as [info|]; [|auto].
  destruct (if isOpened (index info) then _ else _); cbn;
    rewrite ?lookup_insert_ne by congruence; auto.
Qed.

Lemma init_camera_configured isOpened cam_id self info :
  cameras self !! cam_id = Some info ->
  (init_camera isOpened cam_id self).1 = None /\
  (forall c, is_Some (cameras self !! c) ->
             is_Some (cameras (init_camera isOpened cam_id self).2 !! c)) /\
  (is_Some (caps (init_camera isOpened cam_id self).2 !! cam_id) \/
   enabled <$> cameras (init_camera isOpened cam_id self).2 !! cam_id = Some false).
Proof.
  intros Hinfo. unfold init_camera. rewrite Hinfo.
  destruct (if isOpened (index info) then _ else _); cbn.
  - split; [reflexivity|]. split.
    + intros c Hc. destruct (decide (cam_id = c)) as [->|Hne];
        [rewrite lookup_insert_eq; eauto|rewrite lookup_insert_ne by exact Hne; exact Hc].
    + left. rewrite lookup_insert_eq. eauto.
  - split; [reflexivity|]. split.
    + intros c Hc. destruct (decide (cam_id = c)) as [->|Hne];
        [rewrite lookup_insert_eq; eauto|rewrite lookup_insert_ne by exact Hne; exact Hc].
    + right. rewrite lookup_insert_eq. reflexivity.
Qed.

Lemma release_camera_elsewhere cam_id other self :
  same_keys self ->
  cameras (release_camera cam_id self).2 = cameras self /\
  (other <> cam_id ->
   caps (release_camera cam_id self).2 !! other = caps self !! other).
Proof.
  intros (H1 & H2 & H3 & H4). unfold release_camera.
  destruct (caps self !! cam_id) as [i|] eqn:Hcap; [|auto].
  assert (Hin : cam_id ∈ dom (caps self)) by (apply elem_of_dom; eauto).
  assert (Hf : is_Some (frames self !! cam_id))
    by (apply elem_of_dom; rewrite H1; exact Hin).
  assert (Hl : is_Some (last_frames (detector self) !! cam_id))
    by (apply elem_of_dom; rewrite H2; exact Hin).
  assert (Hm : is_Some (motion_detected self !! cam_id))
    by (apply elem_of_dom; rewrite H3; exact Hin).
  assert (Hr : is_Some (recording self !! cam_id))
    by (apply elem_of_dom; rewrite H4; exact Hin).
  destruct Hf as [? Hf], Hl as [? Hl], Hm as [? Hm], Hr as [? Hr].
  cbn. rewrite Hf. cbn. rewrite Hl. cbn. rewrite Hm. cbn. rewrite Hr. cbn.
  split; [reflexivity|]. intros Hne. apply lookup_delete_ne. congruence.
Qed.

Lemma on_camera_toggle_runs isOpened camera_vars : forall self,
  same_keys self ->
  (forall cam, cam ∈ camera_vars.*1 -> is_Some (cameras self !! cam)) ->
  (on_camera_toggle isOpened camera_vars self).1 = None /\
  same_keys (on_camera_toggle isOpened camera_vars self).2 /\
  (forall c, is_Some (cameras self !! c) ->
     is_Some (cameras (on_camera_toggle isOpened camera_vars self).2 !! c)) /\
  (forall other, other ∉ camera_vars.*1 ->
     caps (on_camera_toggle isOpened camera_vars self).2 !! other
       = caps self !! other /\
     cameras (on_camera_toggle isOpened camera_vars self).2 !! other
       = cameras self !! other).
Proof.
  induction camera_vars as [|[cam_id checked] rest IH]; intros self Hkeys Hconf.
  - cbn. auto.
  - cbn [on_camera_toggle].
    destruct (Hconf cam_id) as [info Hinfo]; [left|].
    assert (Hstep : exists self1,
      match checked, caps self !! cam_id with
      | true, None => init_camera isOpened cam_id self
      | false, Some _ => release_camera cam_id self
      | _, _ => (None, self)
      end = (None, self1) /\
      same_keys self1 /\
      (forall c, is_Some (cameras self !! c) -> is_Some (cameras self1 !! c)) /\
      (forall other, other <> cam_id ->
         caps self1 !! other = caps self !! other /\
         cameras self1 !! other = cameras self !! other)).
    { destruct checked, (caps self !! cam_id) as [i|] eqn:Hcap.
      - exists self. auto.
      - destruct (init_camera_configured isOpened cam_id self info Hinfo)
          as (Hnone & Hdom & _).
        pose proof (init_camera_same_keys isOpened cam_id self Hkeys) as Hk.
        pose proof (fun other => init_camera_elsewhere isOpened cam_id other self)
          as Hel.
        destruct (init_camera isOpened cam_id self) as [raised self1] eqn:E.
        cbn in *. subst raised. exists self1.
        split; [reflexivity|]. split; [exact Hk|]. split; [exact Hdom|].
        intros other Hne. apply (Hel other Hne).
      - destruct (release_camera_same_keys cam_id self Hkeys) as (Hnone & Hk & _).
        pose proof (fun other => release_camera_elsewhere cam_id other self Hkeys)
          as Hel.
        destruct (release_camera cam_id self) as [raised self1] eqn:E.
        cbn in *. subst raised. exists self1.
        split; [reflexivity|]. split; [exact Hk|]. split.
        + intros c Hc. destruct (Hel c) as [-> _]. exact Hc.
        + intros other Hne. destruct (Hel other) as [-> Hcaps].
          split; [apply Hcaps, Hne|reflexivity].
      - exists self. auto. }
    destruct Hstep as (self1 & -> & Hk1 & Hdom1 & Hother1).
    destruct (IH self1 Hk1) as (R1 & R2 & R3 & R4).
    { intros cam Hcam. apply Hdom1, Hconf. right. exact Hcam. }
    split; [exact R1|]. split; [exact R2|]. split; [auto|].
    intros other Hnot.
    assert (Hne : other <> cam_id) by (intros ->; apply Hnot; left).
    assert (Hnot' : other ∉ rest.*1) by (intros H; apply Hnot; right; exact H).
    destruct (R4 other Hnot') as [-> ->]. apply Hother1, Hne.
Qed.

(** [on_camera_toggle] makes the open cameras follow the check boxes and
    does not raise: afterwards an unchecked camera is not in [caps], and a
    checked one is in [caps] or, when no device opened for it, marked as
    not enabled. *)
Theorem on_camera_toggle_follows_check_boxes (isOpened : Z -> bool)
    (camera_vars : list (string * bool)) (self : monitor) :
  same_keys self ->
  NoDup camera_vars.*1 ->
  (forall cam, cam ∈ camera_vars.*1 -> is_Some (cameras self !! cam)) ->
  let after := on_camera_toggle isOpened camera_vars self in
  after.1 = None /\
  same_keys after.2 /\
  (forall cam, (cam, false) ∈ camera_vars -> caps after.2 !! cam = None) /\
  (forall cam, (cam, true) ∈ camera_vars ->
     is_Some (caps after.2 !! cam) \/
     enabled <$> cameras after.2 !! cam = Some false).
Proof.
  intros Hkeys Hdup Hconf. cbv zeta.
  destruct (on_camera_toggle_runs isOpened camera_vars self Hkeys Hconf)
    as (Hnone & Hafter & _ & _).
  split; [exact Hnone|]. split; [exact Hafter|].
  clear Hnone Hafter. revert self Hkeys Hconf.
  induction camera_vars as [|[cam_id checked] rest IH]; intros self Hkeys Hconf.
  - split; intros cam H; inversion H.
  - apply NoDup_cons in Hdup as [Hfresh Hdup].
    destruct (Hconf cam_id) as [info Hinfo]; [left|].
    cbn [on_camera_toggle].
    set (step := match checked, caps self !! cam_id with
                 | true, None => init_camera isOpened cam_id self
                 | false, Some _ => release_camera cam_id self
                 | _, _ => (None, self)
                 end).
    assert (Hstep : step.1 = None /\ same_keys step.2 /\
              (forall c, is_Some (cameras self !! c) -> is_Some (cameras step.2 !! c)) /\
              (checked = false -> caps step.2 !! cam_id = None) /\
              (checked = true ->
               is_Some (caps step.2 !! cam_id) \/
               enabled <$> cameras step.2 !! cam_id = Some false)).
    { subst step. destruct checked, (caps self !! cam_id) as [i|] eqn:Hcap; cbn.
      - split; [reflexivity|]. split; [exact Hkeys|]. split; [auto|].
        split; [discriminate|]. intros _. left. rewrite ?Hcap. eauto.
      - destruct (init_camera_configured isOpened cam_id self info Hinfo)
          as (Hnone & Hdom & Hres).
        split; [exact Hnone|]. split; [apply init_camera_same_keys, Hkeys|].
        split; [exact Hdom|]. split; [discriminate|]. intros _. exact Hres.
      - destruct (release_camera_same_keys cam_id self Hkeys) as (Hnone & Hk & Hgone).
        split; [exact Hnone|]. split; [exact Hk|]. split.
        + intros c Hc.
          destruct (release_camera_elsewhere cam_id c self Hkeys) as [-> _]. exact Hc.
        + split; [intros _; exact Hgone|discriminate].
      - split; [reflexivity|]. split; [exact Hkeys|]. split; [auto|].
        split; [intros _; rewrite ?Hcap; reflexivity|discriminate]. }
    destruct Hstep as (Hnone & Hk1 & Hdom1 & Hunchecked & Hchecked).
    destruct step as [raised self1]. cbn in *. subst raised.
    assert (Hconf1 : forall cam, cam ∈ rest.*1 -> is_Some (cameras self1 !! cam)).
    { intros cam Hcam. apply Hdom1, Hconf. right. exact Hcam. }
    destruct (IH Hdup self1 Hk1 Hconf1) as [IHoff IHon].
    destruct (on_camera_toggle_runs isOpened rest self1 Hk1 Hconf1)
      as (_ & _ & _ & Hkeep).
    destruct (Hkeep cam_id Hfresh) as [Hcaps Hcams].
    split; intros cam Hin; apply elem_of_cons in Hin as [Heq|Hin].
    + injection Heq as -> <-. rewrite Hcaps. auto.
    + apply IHoff, Hin.
    + injection Heq as -> <-. rewrite Hcaps, Hcams. auto.
    + apply IHon, Hin.
Qed.

End GuiCameras.

(** ** Appending to the log, again and again *)

Section EventLogMore.
Import EventLog.

(** Once the events file can be written and is missing, unreadable or
    a list, no run of appends made one call after the other raises: every
    call leaves a list one event longer than the list the call before
    left. *)
Theorem log_never_jams (batch : list (string * string)) (s : store) :
  appendable s = true ->
  exists s' old,
    load_events s = JArr old /\
    log_all batch s = Some s' /\
    appendable s' = true /\
    load_events s' = JArr (old ++ map (fun p => event p.1 p.2) batch).
Proof.
  revert s. induction batch as [|[ts ty] rest IH]; intros s Hs.
  - destruct s as [| |[]|]; try discriminate Hs;
      eexists _, _; rewrite app_nil_r; repeat split; reflexivity.
  - destruct (log_event_appendable ts ty s Hs) as [s1 Hs1].
    pose proof (log_event_result_appendable _ _ _ _ Hs1) as Happ1.
    destruct (IH s1 Happ1) as (s' & old1 & Hold1 & Hrun & Happ' & Hload').
    assert (Hold : exists old, load_events s = JArr old /\
                               old1 = old ++ [event ts ty]).
    { unfold _log_event in Hs1. destruct (load_events s) as [| | |old|];
        try discriminate Hs1.
      destruct (open_w s); try discriminate Hs1.
      injection Hs1 as <-. simpl in Hold1. injection Hold1 as <-. eauto. }
    destruct Hold as (old & Hold & ->).
    exists s', old. split; [exact Hold|]. simpl. rewrite Hs1.
    split; [exact Hrun|]. split; [exact Happ'|].
    rewrite Hload', <- app_assoc. reflexivity.
Qed.

Lemma log_never_jams_witness :
  exists s' old,
    load_events Unreadable = JArr old /\
    log_all [("t1", "motion_detected"); ("t2", "manual_record")] Unreadable = Some s' /\
    appendable s' = true /\
    load_events s' = JArr (old ++ map (fun p => event p.1 p.2)
                             [("t1", "motion_detected"); ("t2", "manual_record")]).
Proof.
  apply (log_never_jams [("t1", "motion_detected"); ("t2", "manual_record")]
           Unreadable).
  reflexivity.
Defined.

End EventLogMore.

(** ** The further results on concrete inputs *)

Section ConcreteMore.
Import OneRow.

(** The sample directory, listed: the text file is left out and the clips
    come newest first. *)
Example folder_listing :
  map Camera.filename (Camera.get_recordings digit_of (Some folder))
  = ["manual_20240101_000500.mp4"; "motion_20240101_000200.mp4";
     "motion_20240101_000000.mp4"].
Proof. vm_compute. reflexivity. Qed.

(** The sample device block, read through the whole function: the camera
    named Brio gets the media node that is listed last. *)
Example brio_gets_last_path :
  App.cam_paths listing = inr ("/dev/media1", "/dev/video3").
Proof. vm_compute. reflexivity. Qed.

Lemma init_camera_holds_an_opened_device_witness :
  only 2 2%Z = true /\
  Camera.camera_index (Camera._init_camera (only 2) no_camera) = 2%Z /\
  (only 2 (Camera.camera_index no_camera) = true ->
   2%Z = Camera.camera_index no_camera) /\
  (only 2 (Camera.camera_index no_camera) = false ->
   exists before after,
     [1; 2; 3]%Z = before ++ 2%Z :: after /\
     forall j, j ∈ before -> only 2 j = false).
Proof.
  apply (@init_camera_holds_an_opened_device ops (only 2) no_camera 2%Z).
  reflexivity.
Defined.

Lemma get_camera_does_not_probe_again_witness :
  let once := @Camera.get_camera ops nothing_opens EventLog.Missing ∅ None in
  let again := @Camera.get_camera ops (only 3) EventLog.Missing ∅ once.2 in
  again = once /\
  Camera.cap again.1 = None /\
  Camera.stream [at_time 0 (Some busy_scene); at_time 1 None] again.1
  = (replicate 2 (@part_of ops (@Camera._create_dummy_frame ops)), true).
Proof.
  apply (@get_camera_does_not_probe_again ops nothing_opens (only 3)
           EventLog.Missing EventLog.Missing ∅ ∅
           (@Camera._create_dummy_frame ops)
           [at_time 0 (Some busy_scene); at_time 1 None]).
  - reflexivity.
  - intros i _. reflexivity.
  - reflexivity.
Defined.

Lemma stream_ends_at_first_failed_read_witness :
  Camera.stream [at_time 0 (Some empty_scene); at_time 1 (Some busy_scene)]
    with_camera
  = (omap (@part_for ops)
       [at_time 0 (Some empty_scene); at_time 1 (Some busy_scene)], true) /\
  Camera.stream
    ([at_time 0 (Some empty_scene); at_time 1 (Some busy_scene)]
       ++ at_time 2 None :: [at_time 3 (Some busy_scene)])
    with_camera
  = (omap (@part_for ops)
       [at_time 0 (Some empty_scene); at_time 1 (Some busy_scene)], false).
Proof.
  apply (@stream_ends_at_first_failed_read ops
           [at_time 0 (Some empty_scene); at_time 1 (Some busy_scene)]
           (at_time 2 None) [at_time 3 (Some busy_scene)] with_camera 3%Z).
  - reflexivity.
  - reflexivity.
  - repeat constructor; eexists; reflexivity.
  - reflexivity.
Defined.

Lemma no_trigger_while_motion_lasts_witness :
  let moving := Camera.set_motion_detected true seeded_camera in
  let after := Camera.generate_frames (at_time 1 (Some busy_scene)) moving in
  after.2 = [] /\
  Camera.events after.1.2 = Camera.events moving /\
  Camera.is_recording after.1.2 = Camera.is_recording moving /\
  Camera.recordings after.1.2 = Camera.recordings moving.
Proof.
  apply (@no_trigger_while_motion_lasts ops (at_time 1 (Some busy_scene))
           (Camera.set_motion_detected true seeded_camera)).
  reflexivity.
Defined.

Lemma motion_edge_starts_one_thread_witness :
  let after := Camera.generate_frames (at_time 1 (Some busy_scene)) seeded_camera in
  after.2 = [ {| Camera.trigger_type := "motion"; Camera.at_pc := Camera.AtGuard |} ] /\
  Camera.motion_detected after.1.2 = true /\
  EventLog.persisted (Camera.events after.1.2)
  = Some ([] ++ [EventLog.event (Camera.iso_now (at_time 1 (Some busy_scene)))
                   "motion_detected"]).
Proof.
  apply (@motion_edge_starts_one_thread ops (at_time 1 (Some busy_scene))
           seeded_camera 3%Z busy_scene (@cvtColor ops empty_scene) []).
  - reflexivity.
  - reflexivity.
  - reflexivity.
  - reflexivity.
  - reflexivity.
  - vm_compute. reflexivity.
Defined.

Lemma session_records_its_window_witness :
  let final :=
    Camera.statements
      ([at_time 0 None; at_time 0 None; at_time 0 None; at_time 1 None]
         ++ [at_time 2 (Some busy_scene); at_time 3 None; at_time 4 (Some empty_scene)]
         ++ [at_time 11 (Some busy_scene); at_time 11 None; at_time 11 None])
      {| Camera.trigger_type := "manual"; Camera.at_pc := Camera.AtGuard |}
      with_camera in
  final.1 = {| Camera.trigger_type := "manual"; Camera.at_pc := Camera.Finished |} /\
  Camera.is_recording final.2 = false /\
  Camera.events final.2 = Camera.events with_camera /\
  Camera.recordings final.2
  = <[clip_path "manual" (at_time 1 None) :=
        omap Camera.written
          [at_time 2 (Some busy_scene); at_time 3 None; at_time 4 (Some empty_scene)]]>
      (Camera.recordings with_camera).
Proof.
  apply (@session_records_its_window ops with_camera 3%Z "manual"
           (at_time 0 None) (at_time 0 None) (at_time 0 None) (at_time 1 None)
           [at_time 2 (Some busy_scene); at_time 3 None; at_time 4 (Some empty_scene)]
           (at_time 11 (Some busy_scene)) (at_time 11 None) (at_time 11 None)).
  - reflexivity.
  - reflexivity.
  - repeat constructor.
  - vm_compute. discriminate.
Defined.

Lemma toggle_motion_twice_witness :
  let once := @App.toggle_motion ops "cam1" seeded_globals in
  let twice := @App.toggle_motion ops "cam1" once.2 in
  once.1 = inr ("Motion detection toggled for " +:+ "cam1", negb false) /\
  twice.1 = inr ("Motion detection toggled for " +:+ "cam1", false) /\
  twice.2 = seeded_globals.
Proof.
  apply (@toggle_motion_twice ops "cam1" seeded_globals false).
  - left.
  - reflexivity.
Defined.


Lemma capture_keeps_flag_and_writer_in_step_witness :
  exists out',
    (App.capture [look bright_wall; look dark_wall; look dark_wall] "cam1" None
       wall_globals).1 = inr out' /\
    in_step "cam1" out'
      (App.capture [look bright_wall; look dark_wall; look dark_wall] "cam1" None
         wall_globals).2.
Proof.
  apply (@capture_keeps_flag_and_writer_in_step blocks
           [look bright_wall; look dark_wall; look dark_wall] "cam1" None
           wall_globals).
  - left.
  - right. split; [reflexivity|]. intros w H. discriminate H.
Defined.

Lemma reference_is_shared_between_cameras_witness :
  let g1 := (App.detect_motion_and_record (look dark_wall) "cam1" None
               (App.initial ∅)).2 in
  App.motion_detected
    (App.detect_motion_and_record (look bright_wall) "cam2" None g1).2 !! "cam2"
  = Some (existsb (@App.exceeds blocks)
            (@findContours blocks
               (@mask blocks DefaultKernel
                  (@GaussianBlur blocks (@cvtColor blocks dark_wall) (21, 21)%Z 0)
                  bright_wall))).
Proof.
  apply (@reference_is_shared_between_cameras blocks "cam1" "cam2"
           (look dark_wall) (look bright_wall) None None (App.initial ∅)
           dark_wall bright_wall);
    reflexivity.
Defined.

(** The first frame the thread of cam2 reads is reported as motion when
    cam1 has looked at something else before. *)
Example first_frame_of_second_camera_is_motion :
  let g1 := (App.detect_motion_and_record (look dark_wall) "cam1" None
               (App.initial ∅)).2 in
  App.motion_detected
    (App.detect_motion_and_record (look bright_wall) "cam2" None g1).2 !! "cam2"
  = Some true.
Proof. vm_compute. reflexivity. Qed.

Lemma manual_record_during_session_witness :
  (@App.manual_record ops "cam1" recording_globals).2 = recording_globals.
Proof.
  apply (@manual_record_during_session ops "cam1" recording_globals).
  reflexivity.
Defined.

Lemma released_writer_drops_frames_witness :
  let g := (@App.manual_record blocks "cam1" wall_globals).2 in
  let w := {| App.filename := App.filename clip; App.released := true |} in
  let motion := existsb (@App.exceeds blocks)
                  (@findContours blocks
                     (@mask blocks DefaultKernel
                        (@GaussianBlur blocks (@cvtColor blocks dark_wall) (21, 21)%Z 0)
                        bright_wall)) in
  let after := App.detect_motion_and_record (look bright_wall) "cam1" (Some w) g in
  after.1 = inr (App.Next, Some w) /\
  App.disk after.2 = App.disk g /\
  App.recording after.2 !! "cam1" = Some motion.
Proof.
  apply (@released_writer_drops_frames blocks (look bright_wall) "cam1"
           {| App.filename := App.filename clip; App.released := true |}
           (@App.manual_record blocks "cam1" wall_globals).2 bright_wall
           (@GaussianBlur blocks (@cvtColor blocks dark_wall) (21, 21)%Z 0));
    reflexivity.
Defined.

Lemma motion_clip_contents_witness :
  let name := "../recordings/cam1" +:+ "/motion_" +:+ "20240101_000000" +:+ ".avi" in
  let after :=
    App.capture
      (@reads blocks (("20240101_000000", bright_wall)
                     :: [("20240101_000001", dark_wall)]
                     ++ [("20240101_000002", dark_wall)]))
      "cam1" None wall_globals in
  after.1 = inr (Some {| App.filename := name; App.released := true |}) /\
  App.recording after.2 !! "cam1" = Some false /\
  App.disk after.2
  = <[name := bright_wall :: map snd [("20240101_000001", dark_wall)] ++ [dark_wall]]>
      (App.disk wall_globals).
Proof.
  apply (@motion_clip_contents blocks "cam1" "../recordings/cam1" None wall_globals
           (@GaussianBlur blocks (@cvtColor blocks dark_wall) (21, 21)%Z 0)
           "20240101_000000" bright_wall [("20240101_000001", dark_wall)]
           "20240101_000002" dark_wall).
  - reflexivity.
  - reflexivity.
  - reflexivity.
  - vm_compute. reflexivity.
Defined.

Lemma last_listed_path_wins_witness :
  exists matches',
    App.scan ["Brio"; "C170"] (brio_line :: brio_paths) (None, ∅)
    = inr (Some brio_line, matches') /\
    matches' !! "Brio" = Some (Text.strip (Text.TAB +:+ "/dev/media1")).
Proof.
  apply (last_listed_path_wins ["Brio"; "C170"] brio_line brio_paths
           (Text.TAB +:+ "/dev/media1") "Brio" None ∅).
  - vm_compute. discriminate.
  - reflexivity.
  - repeat constructor; vm_compute; discriminate.
  - reflexivity.
  - left.
  - vm_compute. reflexivity.
Defined.

Lemma blank_output_gives_default_paths_witness :
  App.cam_paths (String Text.LF (" " +:+ Text.TAB))
  = inr ("/dev/video2", "/dev/video3").
Proof.
  apply (blank_output_gives_default_paths (String Text.LF (" " +:+ Text.TAB))).
  reflexivity.
Defined.

Lemma release_camera_never_raises_witness :
  let window :=
    serve_all [Open (only 2) "video2"; Open nothing_opens "video3";
               Close "video3"; Open (only 2) "video2"] window0 in
  same_keys window /\
  (Gui.release_camera "video2" window).1 = None /\
  same_keys (Gui.release_camera "video2" window).2 /\
  Gui.caps (Gui.release_camera "video2" window).2 !! "video2" = None.
Proof.
  apply (@release_camera_never_raises ops
           [Open (only 2) "video2"; Open nothing_opens "video3";
            Close "video3"; Open (only 2) "video2"] "video2" window0).
  repeat split; reflexivity.
Defined.

Lemma opened_camera_starts_without_reference_witness :
  Gui.last_frames (Gui.detector (Gui.init_camera (only 2) "video2" window0).2)
    !! "video2" = Some None /\
  (Gui.detect_motion "video2" (busy_scene : @Frame ops)
     (Gui.detector (Gui.init_camera (only 2) "video2" window0).2)).1 = false.
Proof.
  apply (@opened_camera_starts_without_reference ops (only 2) "video2" window0
           {| Gui.index := 2; Gui.name := "Brio 100"; Gui.enabled := true |} 2%Z
           busy_scene);
    reflexivity.
Defined.

Lemma on_camera_toggle_follows_check_boxes_witness :
  let window := serve_all [Open (only 3) "video3"] window0 in
  let after := Gui.on_camera_toggle (only 2)
                 [("video2", true); ("video3", false)] window in
  after.1 = None /\
  same_keys after.2 /\
  (forall cam, (cam, false) ∈ [("video2", true); ("video3", false)] ->
     Gui.caps after.2 !! cam = None) /\
  (forall cam, (cam, true) ∈ [("video2", true); ("video3", false)] ->
     is_Some (Gui.caps after.2 !! cam) \/
     Gui.enabled <$> Gui.cameras after.2 !! cam = Some false).
Proof.
  apply (@on_camera_toggle_follows_check_boxes ops (only 2)
           [("video2", true); ("video3", false)]
           (serve_all [Open (only 3) "video3"] window0)).
  - repeat split; reflexivity.
  - apply (bool_decide_unpack _). vm_compute. exact I.
  - intros cam H. apply list_elem_of_In in H. simpl in H.
    destruct H as [<-|[<-|[]]]; eexists; reflexivity.
Defined.

(** After the toggle of the sample window, video2 is open on index 2 and
    video3 is released. *)
Example check_boxes_applied :
  Gui.caps (Gui.on_camera_toggle (only 2) [("video2", true); ("video3", false)]
              (serve_all [Open (only 3) "video3"] window0)).2
  = ({[ "video2" := 2%Z ]} : gmap string Z).
Proof. vm_compute. reflexivity. Qed.

End ConcreteMore.
